(** * Ledger-consistent mutators over a cached PostgREST client

    A shallow embedding of [src/core/supabase_client.py]: the response
    cache it consults, the remote tabular store it talks to, the generic
    CRUD layer with its cache invalidation, and the inventory and currency
    mutators built on top of it. *)

From stdpp Require Import gmap strings list fin_maps pretty.
From Stdlib Require Import ZArith Lia.

Open Scope Z_scope.

(** ** JSON values and rows

    A row of the remote store is a Python [dict] from column names to JSON
    scalars. *)

Inductive Value :=
  | VNull
  | VBool (b : bool)
  | VInt (z : Z)
  | VStr (s : string).

#[global] Instance Value_eq_dec : EqDecision Value.
Proof. solve_decision. Defined.

Abbreviation Row := (gmap string Value).
Abbreviation Rows := (list (gmap string Value)).

(** [str(x)], as used by the f-strings of the client. *)
Definition py_str (x : Value) : string :=
  match x with
  | VNull => "None"
  | VBool true => "True"
  | VBool false => "False"
  | VInt z => pretty z
  | VStr s => s
  end.

(** [d.get(k, default)] and [d.get(k)]. *)
Definition py_get (d : Row) (k : string) (dflt : Value) : Value :=
  default dflt (d !! k).

(** Truth value of an [Optional[int]] and of an [Optional[str]] argument. *)
Definition truthy_int (q : option Z) : bool :=
  match q with Some z => negb (z =? 0) | None => false end.

Definition truthy_str (s : option string) : bool :=
  match s with Some EmptyString => false | Some _ => true | None => false end.

(** [s or dflt] for an [Optional[str]]. *)
Definition str_or (s : option string) (dflt : string) : string :=
  match s with Some x => if truthy_str s then x else dflt | None => dflt end.

Definition opt_str (s : option string) : Value :=
  match s with Some x => VStr x | None => VNull end.

(** ** Cache Store *)

Record CacheEntry := mkEntry { value : Rows; createdAt : Z }.

Record APICache := mkCache { ttl : Z; entries : gmap string CacheEntry }.

(** Modelled from the spec: the class [APICache] of [src/core/cache.py] is
    not part of the sources at hand.  An entry is logically absent once
    [now - createdAt > ttl]. *)
Definition expired (c : APICache) (now : Z) (e : CacheEntry) : bool :=
  ttl c <? now - createdAt e.

(** Modelled from the spec: [APICache.get] returns absent for unknown or
    TTL-expired keys; an expired key is evicted as a side effect. *)
Definition cache_get (now : Z) (k : string) (c : APICache) : option Rows * APICache :=
  match entries c !! k with
  | None => (None, c)
  | Some e =>
      if expired c now e
      then (None, mkCache (ttl c) (delete k (entries c)))
      else (Some (value e), c)
  end.

(** Modelled from the spec: [APICache.set] overwrites the entry with a
    fresh timestamp. *)
Definition cache_set (now : Z) (k : string) (v : Rows) (c : APICache) : APICache :=
  mkCache (ttl c) (<[k := mkEntry v now]> (entries c)).

Definition starts_with (p : string) (k : string) : Prop := String.prefix p k = true.

#[global] Instance starts_with_dec p k : Decision (starts_with p k).
Proof. unfold starts_with. solve_decision. Defined.

(** Modelled from the spec: [APICache.clear_prefix] removes every key that
    starts with the prefix and returns the number removed. *)
Definition clear_prefix (p : string) (c : APICache) : nat * APICache :=
  (size (filter (λ kv, starts_with p kv.1) (entries c)),
   mkCache (ttl c) (filter (λ kv, ¬ starts_with p kv.1) (entries c))).

(** Modelled from the spec: [size()], the number of entries tracked, which
    [tests/test_cache.py] reads as [len(cache)]. *)
Definition cache_len (c : APICache) : nat := size (entries c).

(** Modelled from the spec: the truth value of the cache object in
    [if use_cache and self.cache].  The class answers [len()], and Python
    takes the truth value of such an object from its length: a cache
    without entries is falsy. *)
Definition cache_truthy (c : APICache) : bool := negb (Nat.eqb (cache_len c) 0).

(** ** The world: remote store, its availability, and the local cache *)

Inductive Method := GET | POST | PATCH | DELETE.

#[global] Instance Method_eq_dec : EqDecision Method.
Proof. solve_decision. Defined.

Inductive Exn :=
  | HTTPError
  | KeyError (k : string)
  | TypeError
  | IndexError.

Inductive Outcome (A : Type) :=
  | Ok (a : A)
  | Raise (e : Exn).
Arguments Ok {A} a.
Arguments Raise {A} e.

Record World := mkWorld {
  db : gmap string Rows;          (* remote tables, by name *)
  next_id : nat;                  (* primary keys handed out so far *)
  faults : list bool;             (* [true]: the next request is refused *)
  trace : list (Method * string); (* requests sent to the remote store *)
  cache : APICache;
  clock : Z
}.

Definition with_db (f : gmap string Rows → gmap string Rows) (w : World) : World :=
  mkWorld (f (db w)) (next_id w) (faults w) (trace w) (cache w) (clock w).

Definition with_cache (f : APICache → APICache) (w : World) : World :=
  mkWorld (db w) (next_id w) (faults w) (trace w) (f (cache w)) (clock w).

(** Rows of a table; a table nobody wrote to is empty. *)
Definition table_rows (t : string) (w : World) : Rows := db w !!! t.

(** A computation of the client: it may change the world and either returns
    or raises. *)
Definition M (A : Type) : Type := World → Outcome A * World.

#[global] Instance M_ret : MRet M := λ A a w, (Ok a, w).

#[global] Instance M_bind : MBind M := λ A B k m w,
  match m w with
  | (Ok a, w') => k a w'
  | (Raise e, w') => (Raise e, w')
  end.

Definition raise {A} (e : Exn) : M A := λ w, (Raise e, w).

Definition py_getitem (d : Row) (k : string) : M Value :=
  match d !! k with Some v => mret v | None => raise (KeyError k) end.

Definition py_sub (a b : Value) : M Value :=
  match a, b with
  | VInt x, VInt y => mret (VInt (x - y))
  | _, _ => raise TypeError
  end.

Definition py_add (a b : Value) : M Value :=
  match a, b with
  | VInt x, VInt y => mret (VInt (x + y))
  | _, _ => raise TypeError
  end.

(** [a >= b], [a > b] and [a <= 0] on integers; anything else is a
    [TypeError], as for the [None] of a null column. *)
Definition py_ge (a b : Value) : M bool :=
  match a, b with
  | VInt x, VInt y => mret (y <=? x)
  | _, _ => raise TypeError
  end.

Definition py_gt (a b : Value) : M bool :=
  match a, b with
  | VInt x, VInt y => mret (y <? x)
  | _, _ => raise TypeError
  end.

Definition py_le0 (a : Value) : M bool :=
  match a with
  | VInt x => mret (x <=? 0)
  | _ => raise TypeError
  end.

(** [rows[0]]. *)
Definition py_first (rows : Rows) : M Row :=
  match rows with r :: _ => mret r | [] => raise IndexError end.

(** ** The remote tabular store *)

(** One HTTP exchange: it is logged, it consumes one availability flag, and
    [raise_for_status] raises when the store refuses. *)
Definition request (m : Method) (t : string) : M () := λ w,
  let w' := mkWorld (db w) (next_id w) (tail (faults w)) (trace w ++ [(m, t)])
              (cache w) (clock w) in
  match faults w with
  | true :: _ => (Raise HTTPError, w')
  | _ => (Ok (), w')
  end.

Fixpoint strip_prefix (p s : string) : option string :=
  match p with
  | EmptyString => Some s
  | String a p' =>
      match s with
      | String b s' => if Ascii.eqb a b then strip_prefix p' s' else None
      | EmptyString => None
      end
  end.

(** Equality of a stored column with the text of an [eq.] condition. *)
Definition eq_value (x : Value) (v : string) : bool :=
  match x with
  | VStr s => String.eqb s v
  | VInt z => String.eqb (pretty z) v
  | VBool true => String.eqb "true" v
  | VBool false => String.eqb "false" v
  | VNull => false
  end.

Definition reserved : list string := ["select"; "order"; "limit"; "offset"].

(** One [column=operator.value] clause of a query string.  Only the
    equality operator is interpreted; it is the only one the mutators
    send. *)
Definition cond_holds (row : Row) (col cond : string) : bool :=
  if bool_decide (col ∈ reserved) then true
  else match strip_prefix "eq." cond with
       | Some v => match row !! col with
                   | Some x => eq_value x v
                   | None => false
                   end
       | None => false
       end.

Definition row_matches (params : gmap string string) (row : Row) : bool :=
  bool_decide (map_Forall (λ col cond, cond_holds row col cond = true) params).

(** The store hands out the primary key of every row it inserts; keys are
    never reused. *)
Definition gen_id (n : nat) : string := "row-" +:+ pretty n.

Fixpoint assign_ids (n : nat) (rows : Rows) : Rows :=
  match rows with
  | [] => []
  | r :: rs => <["id" := VStr (gen_id n)]> r :: assign_ids (S n) rs
  end.

(** What the store does on GET, POST, PATCH and DELETE once it accepts the
    request: it answers with the selected rows; appends the posted rows
    under fresh keys and echoes them; merges the patch into the selected
    rows and returns them; removes the selected rows and returns them.
    Rows keep their order. *)
Definition db_select (t : string) (params : gmap string string) : M Rows := λ w,
  (Ok (filter (λ r, row_matches params r = true) (table_rows t w)), w).

Definition db_insert (t : string) (data : Rows) : M Rows := λ w,
  let new := assign_ids (next_id w) data in
  (Ok new,
   mkWorld (<[t := table_rows t w ++ new]> (db w)) (next_id w + length data)%nat
     (faults w) (trace w) (cache w) (clock w)).

Definition patch (data : Row) (filters : gmap string string) (r : Row) : Row :=
  if row_matches filters r then data ∪ r else r.

Definition db_update (t : string) (data : Row) (filters : gmap string string) : M Rows := λ w,
  (Ok ((λ r, data ∪ r) <$> filter (λ r, row_matches filters r = true) (table_rows t w)),
   with_db (<[t := patch data filters <$> table_rows t w]>) w).

Definition db_delete (t : string) (filters : gmap string string) : M Rows := λ w,
  (Ok (filter (λ r, row_matches filters r = true) (table_rows t w)),
   with_db (<[t := filter (λ r, row_matches filters r ≠ true) (table_rows t w)]>) w).

(** ** Data Access Client ([SupabaseClient]) *)

Inductive RowOrRows :=
  | One (row : Row)
  | Many (rows : Rows).

(** What the mutators hand back to their caller. *)
Inductive Reply :=
  | RNone                                   (* None *)
  | RRow (row : Row)                        (* a current-state row *)
  | RDeleted (item : Row)                   (* {"deleted": True, "item": item} *)
  | RError (msg : string)                   (* {"error": msg} *)
  | RItemTransferred (transferred : Value) (item : string)
                                            (* {"success": True, "transferred": q, "item": name} *)
  | RCurrencyTransferred (cp sp ep gp pp : Z).
                                            (* {"success": True, "transferred": {...}} *)

(** The client object: [self.cache_prefix], and the digest that
    [_hash_query] takes of the query parameters (a truncated MD5 of their
    sorted items). *)
Record SupabaseClient := mkClient {
  cache_prefix : string;
  query_digest : gmap string string → string
}.

Section Client.

Variable self : SupabaseClient.

Definition _hash_query (params : gmap string string) : string :=
  query_digest self params.

Definition _cache_key (table query_hash : string) : string :=
  cache_prefix self +:+ "_" +:+ table +:+ "_" +:+ query_hash.

(** [invalidate_table_cache]; the cache has [clear_prefix], as
    [tests/test_cache.py] shows. *)
Definition invalidate_table_cache (table : string) : M () := λ w,
  let prefix := cache_prefix self +:+ "_" +:+ table +:+ "_" in
  (Ok (), with_cache (λ c, (clear_prefix prefix c).2) w).

Definition related : gmap string (list string) :=
  list_to_map
    [ ("inventory_current", ["v_inventory"; "inventory_ledger"]);
      ("inventory_ledger", ["v_inventory_history"]);
      ("currency_current", ["v_currency_by_location"; "v_total_wealth"]);
      ("currency_ledger", ["v_currency_history"]);
      ("characters", ["v_characters"; "character_spells"; "character_feats";
                      "character_forms"; "character_companions"]);
      ("character_spells", ["v_character_spells"]);
      ("character_feats", ["v_character_feats"]);
      ("character_forms", ["v_character_forms"]);
      ("character_companions", ["v_character_companions"]);
      ("storage_locations", ["v_inventory"; "v_currency_by_location"]);
      ("diary_entries", []) ].

Definition tables_to_invalidate (table : string) : list string :=
  table :: default [] (related !! table).

Fixpoint for_each (f : string → M ()) (ts : list string) : M () :=
  match ts with
  | [] => mret ()
  | t :: ts' => _ ← f t; for_each f ts'
  end.

Definition invalidate_related_caches (table : string) : M () :=
  for_each invalidate_table_cache (tables_to_invalidate table).

(** [self.cache.get(key)] under the guard [use_cache and self.cache]. *)
Definition cache_lookup (use_cache : bool) (key : string) : M (option Rows) := λ w,
  if use_cache && cache_truthy (cache w)
  then let '(hit, c) := cache_get (clock w) key (cache w) in
       (Ok hit, with_cache (λ _, c) w)
  else (Ok None, w).

(** [self.cache.set(key, data)] under the same guard. *)
Definition cache_store (use_cache : bool) (key : string) (data : Rows) : M () := λ w,
  if use_cache && cache_truthy (cache w)
  then (Ok (), with_cache (cache_set (clock w) key data) w)
  else (Ok (), w).

(** [get], with [select], [order], [limit] and [offset] at their
    defaults, as in every call the mutators make. *)
Definition get (table : string) (filters : gmap string string) (use_cache : bool) : M Rows :=
  let params := filters ∪ {["select" := "*"]} in
  let cache_key := _cache_key table (_hash_query params) in
  cached ← cache_lookup use_cache cache_key;
  match cached with
  | Some rows => mret rows
  | None =>
      _ ← request GET table;
      data ← db_select table params;
      _ ← cache_store use_cache cache_key data;
      mret data
  end.

Definition get_by_id (table id : string) (use_cache : bool) : M (option Row) :=
  results ← get table {["id" := "eq." +:+ id]} use_cache;
  mret (head results).

Definition insert (table : string) (data : RowOrRows) : M Rows :=
  let data := match data with One row => [row] | Many rows => rows end in
  _ ← request POST table;
  inserted ← db_insert table data;
  _ ← invalidate_related_caches table;
  mret inserted.

Definition update (table : string) (data : Row) (filters : gmap string string) : M Rows :=
  _ ← request PATCH table;
  updated ← db_update table data filters;
  _ ← invalidate_related_caches table;
  mret updated.

Definition update_by_id (table id : string) (data : Row) : M (option Row) :=
  results ← update table data {["id" := "eq." +:+ id]};
  mret (head results).

Definition delete (table : string) (filters : gmap string string) : M Rows :=
  _ ← request DELETE table;
  deleted ← db_delete table filters;
  _ ← invalidate_related_caches table;
  mret deleted.

Definition delete_by_id (table id : string) : M (option Row) :=
  results ← delete table {["id" := "eq." +:+ id]};
  mret (head results).

(** ** Inventory mutators *)

Definition item_filters (storage_location_id item_name : string) : gmap string string :=
  {[ "storage_location_id" := "eq." +:+ storage_location_id;
     "item_name" := "eq." +:+ item_name ]}.

Definition set_if (c : bool) (k : string) (v : Value) (d : Row) : Row :=
  if c then <[k := v]> d else d.

Definition add_item (storage_location_id item_name : string) (quantity : Z)
    (is_magic : bool) (rarity item_type item_description : option string)
    (requires_attunement : bool) (notes reason : option string) : M Reply :=
  let item_data : Row :=
    {[ "storage_location_id" := VStr storage_location_id;
       "item_name" := VStr item_name;
       "quantity" := VInt quantity;
       "is_magic" := VBool is_magic ]} in
  let item_data := set_if (truthy_str rarity) "rarity" (opt_str rarity) item_data in
  let item_data := set_if (truthy_str item_type) "item_type" (opt_str item_type) item_data in
  let item_data :=
    set_if (truthy_str item_description) "item_description" (opt_str item_description)
      item_data in
  let item_data :=
    set_if requires_attunement "requires_attunement" (VBool requires_attunement)
      item_data in
  let item_data := set_if (truthy_str notes) "notes" (opt_str notes) item_data in
  result ← insert "inventory_current" (One item_data);
  let ledger_data : Row :=
    {[ "storage_location_id" := VStr storage_location_id;
       "transaction_type" := VStr "add";
       "item_name" := VStr item_name;
       "quantity" := VInt quantity;
       "is_magic" := VBool is_magic;
       "rarity" := opt_str rarity;
       "item_type" := opt_str item_type;
       "reason" := VStr (str_or reason "Added to inventory") ]} in
  _ ← insert "inventory_ledger" (One ledger_data);
  mret (from_option RRow RNone (head result)).

(** [remove_item], from the rows its read returned. *)
Definition remove_item_from (items : Rows) (storage_location_id item_name : string)
    (quantity : option Z) (reason : option string) : M Reply :=
  match items with
  | [] => mret RNone
  | item :: _ =>
      let current_qty := py_get item "quantity" (VInt 1) in
      let remove_qty :=
        if truthy_int quantity then VInt (default 0 quantity) else current_qty in
      let ledger_data : Row :=
        {[ "storage_location_id" := VStr storage_location_id;
           "transaction_type" := VStr "remove";
           "item_name" := VStr item_name;
           "quantity" := remove_qty;
           "is_magic" := py_get item "is_magic" (VBool false);
           "rarity" := py_get item "rarity" VNull;
           "item_type" := py_get item "item_type" VNull;
           "reason" := VStr (str_or reason "Removed from inventory") ]} in
      _ ← insert "inventory_ledger" (One ledger_data);
      whole ← py_ge remove_qty current_qty;
      if (whole : bool) then
        id ← py_getitem item "id";
        _ ← delete "inventory_current" {["id" := "eq." +:+ py_str id]};
        mret (RDeleted item)
      else
        new_qty ← py_sub current_qty remove_qty;
        id ← py_getitem item "id";
        updated ← update_by_id "inventory_current" (py_str id) {["quantity" := new_qty]};
        mret (from_option RRow RNone updated)
  end.

Definition remove_item (storage_location_id item_name : string)
    (quantity : option Z) (reason : option string) : M Reply :=
  items ← get "inventory_current" (item_filters storage_location_id item_name) true;
  remove_item_from items storage_location_id item_name quantity reason.

(** [transfer_item], from the rows its first read returned. *)
Definition transfer_item_from (source_items : Rows)
    (from_location_id to_location_id item_name : string)
    (quantity : option Z) (reason : option string) : M Reply :=
  match source_items with
  | [] => mret (RError ("Item '" +:+ item_name +:+ "' not found in source location"))
  | source_item :: _ =>
      let transfer_qty :=
        if truthy_int quantity then VInt (default 0 quantity)
        else py_get source_item "quantity" (VInt 1) in
      short ← py_gt transfer_qty (py_get source_item "quantity" (VInt 1));
      if (short : bool) then
        available ← py_getitem source_item "quantity";
        mret (RError ("Cannot transfer " +:+ py_str transfer_qty +:+ ", only "
                      +:+ py_str available +:+ " available"))
      else
        let transfer_out : Row :=
          {[ "storage_location_id" := VStr from_location_id;
             "transaction_type" := VStr "transfer_out";
             "item_name" := VStr item_name;
             "quantity" := transfer_qty;
             "is_magic" := py_get source_item "is_magic" (VBool false);
             "rarity" := py_get source_item "rarity" VNull;
             "item_type" := py_get source_item "item_type" VNull;
             "transfer_location_id" := VStr to_location_id;
             "reason" := VStr (str_or reason "Transferred to another location") ]} in
        _ ← insert "inventory_ledger" (One transfer_out);
        let transfer_in : Row :=
          {[ "storage_location_id" := VStr to_location_id;
             "transaction_type" := VStr "transfer_in";
             "item_name" := VStr item_name;
             "quantity" := transfer_qty;
             "is_magic" := py_get source_item "is_magic" (VBool false);
             "rarity" := py_get source_item "rarity" VNull;
             "item_type" := py_get source_item "item_type" VNull;
             "transfer_location_id" := VStr from_location_id;
             "reason" := VStr (str_or reason "Transferred from another location") ]} in
        _ ← insert "inventory_ledger" (One transfer_in);
        source_qty ← py_getitem source_item "quantity";
        remaining ← py_sub source_qty transfer_qty;
        gone ← py_le0 remaining;
        _ ← (if (gone : bool)
             then source_id ← py_getitem source_item "id";
                  delete_by_id "inventory_current" (py_str source_id)
             else source_id ← py_getitem source_item "id";
                  update_by_id "inventory_current" (py_str source_id)
                    {["quantity" := remaining]});
        dest_items ← get "inventory_current" (item_filters to_location_id item_name) true;
        _ ← match dest_items with
            | dest :: _ =>
                dest_qty ← py_getitem dest "quantity";
                new_qty ← py_add dest_qty transfer_qty;
                dest_id ← py_getitem dest "id";
                _ ← update_by_id "inventory_current" (py_str dest_id)
                      {["quantity" := new_qty]};
                mret ()
            | [] =>
                let new_item : Row :=
                  {[ "storage_location_id" := VStr to_location_id;
                     "item_name" := VStr item_name;
                     "quantity" := transfer_qty;
                     "is_magic" := py_get source_item "is_magic" (VBool false);
                     "rarity" := py_get source_item "rarity" VNull;
                     "item_type" := py_get source_item "item_type" VNull;
                     "item_description" := py_get source_item "item_description" VNull;
                     "requires_attunement" :=
                       py_get source_item "requires_attunement" (VBool false);
                     "notes" := py_get source_item "notes" VNull ]} in
                _ ← insert "inventory_current" (One new_item);
                mret ()
            end;
        mret (RItemTransferred transfer_qty item_name)
  end.

Definition transfer_item (from_location_id to_location_id item_name : string)
    (quantity : option Z) (reason : option string) : M Reply :=
  source_items ← get "inventory_current" (item_filters from_location_id item_name) true;
  transfer_item_from source_items from_location_id to_location_id item_name quantity reason.

(** ** Currency mutators *)

Definition location_filter (storage_location_id : string) : gmap string string :=
  {[ "storage_location_id" := "eq." +:+ storage_location_id ]}.

(** [current[0].get(coin, 0) + amount]. *)
Definition credit (row : Row) (coin : string) (amount : Z) : M Value :=
  py_add (py_get row coin (VInt 0)) (VInt amount).

(** [max(0, current[0].get(coin, 0) - amount)]. *)
Definition debit (row : Row) (coin : string) (amount : Z) : M Value :=
  left ← py_sub (py_get row coin (VInt 0)) (VInt amount);
  match left with
  | VInt z => mret (VInt (Z.max 0 z))
  | _ => raise TypeError
  end.

Definition currency_ledger_row (storage_location_id kind : string)
    (copper silver electrum gold platinum : Z) (reason : string) : Row :=
  {[ "storage_location_id" := VStr storage_location_id;
     "transaction_type" := VStr kind;
     "copper" := VInt copper;
     "silver" := VInt silver;
     "electrum" := VInt electrum;
     "gold" := VInt gold;
     "platinum" := VInt platinum;
     "reason" := VStr reason ]}.

(** [add_currency], from the rows its first read returned. *)
Definition add_currency_from (current : Rows) (storage_location_id : string)
    (copper silver electrum gold platinum : Z) (reason : option string) : M Reply :=
  _ ← match current with
      | row :: _ =>
          c ← credit row "copper" copper;
          s ← credit row "silver" silver;
          e ← credit row "electrum" electrum;
          g ← credit row "gold" gold;
          p ← credit row "platinum" platinum;
          let new_balance : Row :=
            {[ "copper" := c; "silver" := s; "electrum" := e;
               "gold" := g; "platinum" := p ]} in
          id ← py_getitem row "id";
          _ ← update_by_id "currency_current" (py_str id) new_balance;
          mret ()
      | [] =>
          let new_balance : Row :=
            {[ "storage_location_id" := VStr storage_location_id;
               "copper" := VInt copper; "silver" := VInt silver;
               "electrum" := VInt electrum; "gold" := VInt gold;
               "platinum" := VInt platinum ]} in
          _ ← insert "currency_current" (One new_balance);
          mret ()
      end;
  _ ← insert "currency_ledger"
        (One (currency_ledger_row storage_location_id "add"
                copper silver electrum gold platinum (str_or reason "Currency added")));
  rows ← get "currency_current" (location_filter storage_location_id) true;
  row ← py_first rows;
  mret (RRow row).

Definition add_currency (storage_location_id : string)
    (copper silver electrum gold platinum : Z) (reason : option string) : M Reply :=
  current ← get "currency_current" (location_filter storage_location_id) true;
  add_currency_from current storage_location_id copper silver electrum gold platinum reason.

(** [remove_currency], from the rows its first read returned. *)
Definition remove_currency_from (current : Rows) (storage_location_id : string)
    (copper silver electrum gold platinum : Z) (reason : option string) : M Reply :=
  match current with
  | [] => mret (RError "No currency record found for this location")
  | row :: _ =>
      c ← debit row "copper" copper;
      s ← debit row "silver" silver;
      e ← debit row "electrum" electrum;
      g ← debit row "gold" gold;
      p ← debit row "platinum" platinum;
      let new_balance : Row :=
        {[ "copper" := c; "silver" := s; "electrum" := e;
           "gold" := g; "platinum" := p ]} in
      id ← py_getitem row "id";
      _ ← update_by_id "currency_current" (py_str id) new_balance;
      _ ← insert "currency_ledger"
            (One (currency_ledger_row storage_location_id "remove"
                    copper silver electrum gold platinum
                    (str_or reason "Currency removed")));
      rows ← get "currency_current" (location_filter storage_location_id) true;
      row ← py_first rows;
      mret (RRow row)
  end.

Definition remove_currency (storage_location_id : string)
    (copper silver electrum gold platinum : Z) (reason : option string) : M Reply :=
  current ← get "currency_current" (location_filter storage_location_id) true;
  remove_currency_from current storage_location_id copper silver electrum gold platinum
    reason.

(** [reason or ''] inside the f-strings of [transfer_currency]. *)
Definition reason_text (reason : option string) : string := str_or reason EmptyString.

Definition transfer_currency (from_location_id to_location_id : string)
    (copper silver electrum gold platinum : Z) (reason : option string) : M Reply :=
  _ ← remove_currency from_location_id copper silver electrum gold platinum
        (Some ("Transfer to another location: " +:+ reason_text reason));
  _ ← add_currency to_location_id copper silver electrum gold platinum
        (Some ("Transfer from another location: " +:+ reason_text reason));
  mret (RCurrencyTransferred copper silver electrum gold platinum).

(** ** The other inventory mutator *)



(** ** Character spells, feats, forms and companions *)


(** [len(results) > 0]. *)
Definition nonempty (results : Rows) : bool := (0 <? length results)%nat.

Definition remove_character_spell (character_id spell_name : string) : M bool :=
  results ← delete "character_spells"
              {[ "character_id" := "eq." +:+ character_id;
                 "spell_name" := "eq." +:+ spell_name ]};
  mret (nonempty results).




Definition update_companion_hp (companion_id : string) (current_hp : Z) : M (option Row) :=
  update_by_id "character_companions" companion_id
    {["hit_points_current" := VInt current_hp]}.

(** ** Rows by primary key *)

Definition get_diary_entry (entry_id : string) : M (option Row) :=
  get_by_id "diary_entries" entry_id true.

Definition update_diary_entry (entry_id : string) (data : Row) : M (option Row) :=
  update_by_id "diary_entries" entry_id data.

(** [result is not None]. *)
Definition delete_diary_entry (entry_id : string) : M bool :=
  result ← delete_by_id "diary_entries" entry_id;
  mret (bool_decide (is_Some result)).

(** ** Utility methods *)

(** Modelled from the spec: [APICache.clear] removes everything. *)
Definition cache_clear (c : APICache) : APICache := mkCache (ttl c) ∅.

Definition clear_all_cache : M () := λ w,
  if cache_truthy (cache w) then (Ok (), with_cache cache_clear w) else (Ok (), w).

End Client.

(** * Vocabulary of the statements *)

(** The remote store answers every request from here on. *)
Definition reliable (w : World) : Prop := faults w = [].

(** The world after one more request has been sent and logged. *)
Definition logged (m : Method) (t : string) (w : World) : World :=
  mkWorld (db w) (next_id w) (tail (faults w)) (trace w ++ [(m, t)]) (cache w) (clock w).

(** Selected rows of a table, as the remote store computes them. *)
Definition selected (t : string) (params : gmap string string) (w : World) : Rows :=
  filter (λ r, row_matches params r = true) (table_rows t w).

(** The query parameters [get] builds from its filters. *)
Definition star (filters : gmap string string) : gmap string string :=
  filters ∪ {["select" := "*"]}.

Section Vocabulary.

Variable self : SupabaseClient.

Definition table_prefix (t : string) : string :=
  cache_prefix self +:+ "_" +:+ t +:+ "_".

(** The cache after the invalidation loop over [ts]. *)
Definition purge (ts : list string) (c : APICache) : APICache :=
  foldl (λ c t, (clear_prefix (table_prefix t) c).2) c ts.

(** Every cached answer for table [t] is what the store would answer now. *)
Definition coherent (t : string) (w : World) : Prop :=
  ∀ p e, entries (cache w) !! _cache_key self t (_hash_query self p) = Some e →
         value e = selected t p w.

(** The world after a successful write of [t] that changed the tables to
    [d] and handed out [n] fresh keys. *)
Definition written (m : Method) (t : string) (d : gmap string Rows) (n : nat)
    (w : World) : World :=
  mkWorld d (next_id w + n)%nat (tail (faults w)) (trace w ++ [(m, t)])
    (purge (tables_to_invalidate t) (cache w)) (clock w).

(** The cache key of a read of [t] with the given filters. *)
Definition query_key (t : string) (filters : gmap string string) : string :=
  _cache_key self t (_hash_query self (star filters)).

End Vocabulary.

(** The write operations of the Data Access Client, as one call. *)
Inductive WriteCall :=
  | CallInsert (data : RowOrRows)
  | CallUpdate (data : Row) (filters : gmap string string)
  | CallDelete (filters : gmap string string)
  | CallUpdateById (id : string) (data : Row)
  | CallDeleteById (id : string).

Definition run_write (self : SupabaseClient) (table : string) (call : WriteCall) : M () :=
  match call with
  | CallInsert data => _ ← insert self table data; mret ()
  | CallUpdate data filters => _ ← update self table data filters; mret ()
  | CallDelete filters => _ ← delete self table filters; mret ()
  | CallUpdateById id data => _ ← update_by_id self table id data; mret ()
  | CallDeleteById id => _ ← delete_by_id self table id; mret ()
  end.

(** [t] is listed for [table] in the dependency map. *)
Definition listed_for (table t : string) : Prop :=
  ∃ deps, related !! table = Some deps ∧ t ∈ deps.

(** ** Concrete data for worked runs *)

(** A digest that spells the parameters out. *)
Definition render (p : gmap string string) : string :=
  String.concat "&" ((λ kv : string * string, kv.1 +:+ "=" +:+ kv.2) <$> map_to_list p).

Definition demo : SupabaseClient := mkClient "campaign" render.

(** An empty store behind an empty cache with a 24-hour TTL. *)
Definition empty_world : World := mkWorld ∅ 0 [] [] (mkCache 86400 ∅) 0.

(** A world whose cache holds an answer for the view [v_inventory]. *)
Definition viewed_world : World :=
  mkWorld ∅ 0 [] []
    (mkCache 86400 {[ query_key demo "v_inventory" ∅ := mkEntry [] 0 ]}) 0.

(** ** Rows and keys *)

(** Column [col] of the row equals the text [v], as an [eq.] filter sees it. *)
Definition col_is (r : Row) (col v : string) : bool :=
  match r !! col with Some x => eq_value x v | None => false end.

(** The row belongs to the item key (location, item name). *)
Definition on_key (loc name : string) (r : Row) : bool :=
  col_is r "storage_location_id" loc && col_is r "item_name" name.

(** The row carries one of the first [n] primary keys of the store. *)
Definition has_key (n : nat) (r : Row) : Prop :=
  ∃ k, (k < n)%nat ∧ r !! "id" = Some (VStr (gen_id k)).

(** Every row has its own primary key. *)
Definition keyed_rows (n : nat) (rows : Rows) : Prop :=
  Forall (has_key n) rows ∧ NoDup ((λ r : Row, r !! "id") <$> rows).

Definition keyed (t : string) (w : World) : Prop :=
  keyed_rows (next_id w) (table_rows t w).

(** Sum of [f] over rows. *)
Definition total (f : Row → Z) (rows : Rows) : Z :=
  foldr (λ r acc, f r + acc) 0 rows.

(** ** Inventory *)

Definition has_quantity (r : Row) : Prop := ∃ q, r !! "quantity" = Some (VInt q).

(** The quantity the mutators read off a row: [item.get("quantity", 1)]. *)
Definition quantity_of (r : Row) : Z :=
  match py_get r "quantity" (VInt 1) with VInt q => q | _ => 0 end.

(** Rows of the key in the current-state table. *)
Definition held (loc name : string) (w : World) : Rows :=
  filter (λ r, on_key loc name r = true) (table_rows "inventory_current" w).

(** Sum of [f] over the rows of the key. *)
Definition key_total (loc name : string) (f : Row → Z) (rows : Rows) : Z :=
  total f (filter (λ r, on_key loc name r = true) rows).

(** Current-state quantity of the key: what its rows hold together, 0 when
    it has none. *)
Definition stock (loc name : string) (w : World) : Z :=
  key_total loc name quantity_of (table_rows "inventory_current" w).

(** The signed quantity a ledger entry stands for. *)
Definition ledger_delta (e : Row) : Z :=
  match e !! "transaction_type", e !! "quantity" with
  | Some (VStr kind), Some (VInt q) =>
      if bool_decide (kind = "add" ∨ kind = "transfer_in") then q
      else if bool_decide (kind = "remove" ∨ kind = "transfer_out") then - q
      else 0
  | _, _ => 0
  end.

(** Sum of the ledger deltas recorded for the key. *)
Definition ledger_sum (loc name : string) (w : World) : Z :=
  key_total loc name ledger_delta (table_rows "inventory_ledger" w).



(** The state in which the mutators of table [t] are meant to run: the
    store answers, the cache tells the truth about [t], and the rows of [t]
    are keyed and of the expected shape. *)
Definition table_ok (self : SupabaseClient) (t : string) (shape : Row → Prop)
    (w : World) : Prop :=
  reliable w
  ∧ coherent self t w
  ∧ keyed t w
  ∧ Forall shape (table_rows t w).

Definition items_ok (self : SupabaseClient) : World → Prop :=
  table_ok self "inventory_current" has_quantity.

(** Calls of the inventory mutators, and runs of them.  Each call is its
    own request of the tool layer: whatever it returns or raises, the next
    call starts from the world it left. *)
Inductive ItemCall :=
  | AddItem (loc name : string) (quantity : Z) (is_magic : bool)
      (rarity item_type item_description : option string)
      (requires_attunement : bool) (notes reason : option string)
  | RemoveItem (loc name : string) (quantity : option Z) (reason : option string)
  | TransferItem (from to name : string) (quantity : option Z) (reason : option string).

Definition call_item (self : SupabaseClient) (c : ItemCall) : M Reply :=
  match c with
  | AddItem loc name q magic rarity kind descr attune notes reason =>
      add_item self loc name q magic rarity kind descr attune notes reason
  | RemoveItem loc name q reason => remove_item self loc name q reason
  | TransferItem from to name q reason => transfer_item self from to name q reason
  end.

Fixpoint run_items (self : SupabaseClient) (cs : list ItemCall) (w : World) : World :=
  match cs with
  | [] => w
  | c :: cs' => run_items self cs' (call_item self c w).2
  end.



(** ** Currency *)

Definition coins : list string := ["copper"; "silver"; "electrum"; "gold"; "platinum"].


(** What the mutators read off a row: [row.get(coin, 0)]. *)
Definition coin_of (r : Row) (coin : string) : Z :=
  match py_get r coin (VInt 0) with VInt z => z | _ => 0 end.


(** The currency records of a location. *)
Definition purse (loc : string) (w : World) : Rows :=
  filter (λ r, col_is r "storage_location_id" loc = true)
    (table_rows "currency_current" w).






(** ** More concrete data *)

(** A digest without collisions: the parameters, encoded and printed. *)
Definition spelled (p : gmap string string) : string := pretty (encode p).

Definition exact : SupabaseClient := mkClient "campaign" spelled.

Definition potion_row : Row :=
  {[ "id" := VStr "row-0";
     "storage_location_id" := VStr "locA";
     "item_name" := VStr "Potion of Healing";
     "quantity" := VInt 2;
     "is_magic" := VBool false ]}.

(** Two potions at location A, nothing cached. *)
Definition potion_world : World :=
  mkWorld {[ "inventory_current" := [potion_row] ]} 1 [] [] (mkCache 86400 ∅) 0.


(** Five are added, two are removed, the rest is moved to location B. *)
Definition orderly_calls : list ItemCall :=
  [ AddItem "locA" "Potion of Healing" 5 false None None None false None None;
    RemoveItem "locA" "Potion of Healing" (Some 2) None;
    TransferItem "locA" "locB" "Potion of Healing" None None ].


(** Amounts per denomination, as the currency mutators take them. *)
Record Amounts := mkAmounts { cp : Z; sp : Z; ep : Z; gp : Z; pp : Z }.

(** Runs of calls with their outcomes: a call that raises does not keep the
    next one from running. *)
Fixpoint replay {A} (ms : list (M A)) (w : World) : list (Outcome A) * World :=
  match ms with
  | [] => ([], w)
  | m :: ms' =>
      let '(o, w1) := m w in
      let '(os, w2) := replay ms' w1 in
      (o :: os, w2)
  end.

Definition removal (self : SupabaseClient) (loc : string)
    (call : Amounts * option string) : M Reply :=
  remove_currency self loc (cp call.1) (sp call.1) (ep call.1) (gp call.1) (pp call.1)
    call.2.

Definition coin_row (id loc : string) (a : Amounts) : Row :=
  {[ "id" := VStr id;
     "storage_location_id" := VStr loc;
     "copper" := VInt (cp a); "silver" := VInt (sp a); "electrum" := VInt (ep a);
     "gold" := VInt (gp a); "platinum" := VInt (pp a) ]}.

(** Location A holds 5 cp, 3 sp and 10 gp; nothing is cached. *)
Definition treasury_world : World :=
  mkWorld {[ "currency_current" := [coin_row "row-0" "locA" (mkAmounts 5 3 0 10 0)] ]}
    1 [] [] (mkCache 86400 ∅) 0.

(** Removals that ask for more than there is. *)
Definition greedy_removals : list (Amounts * option string) :=
  [ (mkAmounts 4 0 0 20 0, None); (mkAmounts 4 9 1 0 0, Some "Paid the ferryman") ].

(** The spec's reading of a currency transfer: a removal at the source and
    then an addition at the destination, each a call of its own whose
    effects stay whatever happens to the other. *)
Definition remove_then_add (self : SupabaseClient) (from_location_id to_location_id : string)
    (copper silver electrum gold platinum : Z) (reason : option string) : M Reply := λ w,
  let removed :=
    remove_currency self from_location_id copper silver electrum gold platinum
      (Some ("Transfer to another location: " +:+ reason_text reason)) w in
  match removed.1 with
  | Raise e => (Raise e, removed.2)
  | Ok _ =>
      let added :=
        add_currency self to_location_id copper silver electrum gold platinum
          (Some ("Transfer from another location: " +:+ reason_text reason)) removed.2 in
      match added.1 with
      | Raise e => (Raise e, added.2)
      | Ok _ => (Ok (RCurrencyTransferred copper silver electrum gold platinum), added.2)
      end
  end.

(** The treasury of location A behind a store that refuses the sixth
    request. *)
Definition failing_world : World :=
  mkWorld {[ "currency_current" := [coin_row "row-0" "locA" (mkAmounts 5 3 0 10 0)] ]}
    1 [false; false; false; false; false; true] [] (mkCache 86400 ∅) 0.

(** The cache holds a live answer [rows] for a read of [t] with [filters],
    and the guard [self.cache] of [get] lets it through. *)
Definition cached (self : SupabaseClient) (t : string) (filters : gmap string string)
    (w : World) (rows : Rows) : Prop :=
  cache_truthy (cache w) = true
  ∧ ∃ e, entries (cache w) !! query_key self t filters = Some e
         ∧ expired (cache w) (clock w) e = false
         ∧ value e = rows.

(** The cache still says five potions while the store holds two. *)
Definition stale_row : Row := <["quantity" := VInt 5]> potion_row.

Definition stale_world : World :=
  mkWorld {[ "inventory_current" := [potion_row] ]} 1 [] []
    (mkCache 86400
       {[ query_key demo "inventory_current" (item_filters "locA" "Potion of Healing")
          := mkEntry [stale_row] 0 ]}) 0.

(** A cache with answers for the potion key and for location A's currency. *)
Definition warm_world : World :=
  mkWorld {[ "inventory_current" := [potion_row];
             "currency_current" := [coin_row "row-1" "locA" (mkAmounts 5 3 0 10 0)] ]}
    2 [] []
    (mkCache 86400
       {[ query_key demo "inventory_current" (item_filters "locA" "Potion of Healing")
          := mkEntry [stale_row] 0;
          query_key demo "currency_current" (location_filter "locA")
          := mkEntry [] 0 ]}) 0.


(** Two potions at location A behind a store that refuses the next
    request. *)
Definition unreachable_world : World :=
  mkWorld {[ "inventory_current" := [potion_row] ]} 1 [true] [] (mkCache 86400 ∅) 0.


(** ** Data for the further properties *)

(** One diary entry and one companion, nothing cached. *)
Definition diary_row : Row :=
  {[ "id" := VStr "row-0"; "title" := VStr "The ferry"; "content" := VStr "We crossed." ]}.

Definition companion_row : Row :=
  {[ "id" := VStr "row-1"; "character_id" := VStr "char-1";
     "companion_name" := VStr "Owl";
     "hit_points_max" := VInt 5; "hit_points_current" := VInt 5 ]}.

Definition journal_world : World :=
  mkWorld {[ "diary_entries" := [diary_row]; "character_companions" := [companion_row] ]}
    2 [] [] (mkCache 86400 ∅) 0.

(** The cache holds answers for the view [v_inventory_history] and for
    location A's currency. *)
Definition history_world : World :=
  mkWorld ∅ 0 [] []
    (mkCache 86400
       {[ query_key demo "v_inventory_history" ∅ := mkEntry [] 0;
          query_key demo "currency_current" (location_filter "locA") := mkEntry [] 0 ]}) 0.


(** Two rows for the same spell of one character, and one for another. *)
Definition spell_row (id name : string) : Row :=
  {[ "id" := VStr id; "character_id" := VStr "char-1"; "spell_name" := VStr name;
     "spell_level" := VInt 1; "source_type" := VStr "class";
     "source_name" := VStr "Wizard" ]}.

Definition spellbook_world : World :=
  mkWorld {[ "character_spells" :=
               [spell_row "row-0" "Shield"; spell_row "row-1" "Sleep";
                spell_row "row-2" "Shield"] ]}
    3 [] [] (mkCache 86400 ∅) 0.







(** * Properties *)

(** ** Strings *)

Lemma app_cons (a : Ascii.ascii) (s t : string) : String a s +:+ t = String a (s +:+ t).
Proof. reflexivity. Qed.

Lemma app_empty (t : string) : EmptyString +:+ t = t.
Proof. reflexivity. Qed.

Lemma prefix_app (p s : string) : String.prefix p (p +:+ s) = true.
Proof.
  induction p as [|a p IH].
  - rewrite app_empty. by destruct s.
  - rewrite app_cons. simpl. rewrite IH. by destruct (Ascii.ascii_dec a a).
Qed.

Lemma strip_prefix_app (p s : string) : strip_prefix p (p +:+ s) = Some s.
Proof.
  induction p as [|a p IH]; [done|].
  rewrite app_cons. simpl. by rewrite Ascii.eqb_refl.
Qed.

Lemma app_inv_head_str (p a b : string) : p +:+ a = p +:+ b → a = b.
Proof. apply (inj (String.app p)). Qed.

Lemma app_assoc_str (a b c : string) : (a +:+ b) +:+ c = a +:+ b +:+ c.
Proof.
  induction a as [|x a IH]; [done|].
  rewrite !app_cons. by f_equal.
Qed.

Lemma gen_id_inj (n m : nat) : gen_id n = gen_id m → n = m.
Proof.
  unfold gen_id. intros H. apply app_inv_head_str in H.
  by apply (inj pretty) in H.
Qed.

(** ** The monad *)

Lemma bind_ok {A B} (m : M A) (k : A → M B) w a w' :
  m w = (Ok a, w') → (m ≫= k) w = k a w'.
Proof. intros H. unfold mbind, M_bind. by rewrite H. Qed.


Lemma bind_assoc {A B C} (m : M A) (f : A → M B) (g : B → M C) w :
  ((m ≫= f) ≫= g) w = (m ≫= (λ x, f x ≫= g)) w.
Proof. unfold mbind, M_bind. by destruct (m w) as [[a|e] w']. Qed.


Lemma bind_raise {A B} (m : M A) (k : A → M B) w e w' :
  m w = (Raise e, w') → (m ≫= k) w = (Raise e, w').
Proof. intros H. unfold mbind, M_bind. by rewrite H. Qed.

(** ** Cache Store *)

Lemma clear_prefix_ttl p c : ttl (clear_prefix p c).2 = ttl c.
Proof. done. Qed.

Lemma clear_prefix_lookup_Some p c k e :
  entries (clear_prefix p c).2 !! k = Some e ↔
  entries c !! k = Some e ∧ ¬ starts_with p k.
Proof. unfold clear_prefix; simpl. by rewrite map_lookup_filter_Some. Qed.

Lemma clear_prefix_gone p c k :
  starts_with p k → entries (clear_prefix p c).2 !! k = None.
Proof.
  intros Hp. destruct (entries (clear_prefix p c).2 !! k) as [e|] eqn:E; [|done].
  apply clear_prefix_lookup_Some in E as [_ Hn]. by destruct Hn.
Qed.

Lemma clear_prefix_again p c : (clear_prefix p (clear_prefix p c).2).1 = 0%nat.
Proof.
  unfold clear_prefix; simpl.
  apply map_size_empty_iff, map_empty. intros k.
  apply map_lookup_filter_None. right. intros e He Hp.
  apply map_lookup_filter_Some in He as [_ Hn]. by apply Hn.
Qed.

Section ClientFacts.

Variable self : SupabaseClient.

Lemma cache_key_prefix t h : starts_with (table_prefix self t) (_cache_key self t h).
Proof.
  unfold starts_with, table_prefix, _cache_key.
  replace (cache_prefix self +:+ "_" +:+ t +:+ "_" +:+ h)
    with ((cache_prefix self +:+ "_" +:+ t +:+ "_") +:+ h).
  - apply prefix_app.
  - by rewrite !app_assoc_str.
Qed.


Lemma for_each_invalidate ts w :
  for_each (invalidate_table_cache self) ts w = (Ok (), with_cache (purge self ts) w).
Proof.
  revert w. induction ts as [|t ts IH]; intros w; simpl.
  - by destruct w.
  - unfold mbind, M_bind, invalidate_table_cache at 1. simpl.
    rewrite IH. by destruct w.
Qed.

Lemma invalidate_related_caches_eq table w :
  invalidate_related_caches self table w
  = (Ok (), with_cache (purge self (tables_to_invalidate table)) w).
Proof. apply for_each_invalidate. Qed.

Lemma purge_ttl ts c : ttl (purge self ts c) = ttl c.
Proof. revert c. induction ts as [|t ts IH]; intros c; simpl; [done|]. by rewrite IH. Qed.

Lemma purge_lookup_Some ts c k e :
  entries (purge self ts c) !! k = Some e → entries c !! k = Some e.
Proof.
  revert c. induction ts as [|t ts IH]; intros c; simpl; [done|].
  intros H. apply IH in H. by apply clear_prefix_lookup_Some in H as [? _].
Qed.

Lemma purge_gone ts c t k :
  t ∈ ts → starts_with (table_prefix self t) k → entries (purge self ts c) !! k = None.
Proof.
  revert c. induction ts as [|t' ts IH]; intros c Hin Hp; [by inversion Hin|].
  simpl. apply elem_of_cons in Hin as [->|Hin]; [|by apply IH].
  destruct (entries (purge self ts (clear_prefix (table_prefix self t') c).2) !! k) as [e|] eqn:E;
    [|done].
  apply purge_lookup_Some in E. by rewrite clear_prefix_gone in E.
Qed.


(** ** Filters *)


Lemma eq_value_str s v : eq_value (VStr s) v = bool_decide (s = v).
Proof.
  simpl. destruct (String.eqb_spec s v).
  - by rewrite bool_decide_eq_true_2.
  - by rewrite bool_decide_eq_false_2.
Qed.


Lemma col_is_str r col s v : r !! col = Some (VStr s) → col_is r col v = bool_decide (s = v).
Proof. unfold col_is. intros ->. apply eq_value_str. Qed.

Lemma cond_holds_eq r col v :
  col ∉ reserved → cond_holds r col ("eq." +:+ v) = col_is r col v.
Proof.
  intros Hc. unfold cond_holds. rewrite bool_decide_eq_false_2 by done.
  by rewrite strip_prefix_app.
Qed.

Lemma row_matches_empty r : row_matches ∅ r = true.
Proof. unfold row_matches. apply bool_decide_eq_true_2, map_Forall_empty. Qed.

Lemma row_matches_insert k c (p : gmap string string) r :
  p !! k = None → row_matches (<[k := c]> p) r = cond_holds r k c && row_matches p r.
Proof.
  intros Hk. unfold row_matches.
  rewrite (bool_decide_ext _ _ (map_Forall_insert _ p k c Hk)).
  rewrite bool_decide_and.
  by destruct (cond_holds r k c).
Qed.

Ltac not_reserved := apply (bool_decide_unpack _); by vm_compute.

Lemma row_matches_id r i : row_matches {["id" := "eq." +:+ i]} r = col_is r "id" i.
Proof.
  rewrite <- insert_empty, row_matches_insert, row_matches_empty by done.
  rewrite cond_holds_eq, andb_true_r; [done|].
  not_reserved.
Qed.




(** ** Requests and the generic CRUD layer *)

Lemma request_ok m t w : head (faults w) ≠ Some true → request m t w = (Ok (), logged m t w).
Proof. unfold request, logged. by destruct (faults w) as [|[] ?]. Qed.

Lemma request_refused m t w :
  head (faults w) = Some true → request m t w = (Raise HTTPError, logged m t w).
Proof. unfold request, logged. by destruct (faults w) as [|[] ?]. Qed.


Lemma table_rows_insert t t' rows (m : gmap string Rows) n f tr c k :
  table_rows t' (mkWorld (<[t := rows]> m) n f tr c k)
  = if decide (t = t') then rows else table_rows t' (mkWorld m n f tr c k).
Proof.
  unfold table_rows; simpl. case_decide as E.
  - subst. by rewrite lookup_total_insert_eq.
  - by rewrite lookup_total_insert_ne.
Qed.


Lemma insert_ok t data w :
  head (faults w) ≠ Some true →
  let rows := match data with One row => [row] | Many rows => rows end in
  insert self t data w
  = (Ok (assign_ids (next_id w) rows),
     written self POST t (<[t := table_rows t w ++ assign_ids (next_id w) rows]> (db w))
       (length rows) w).
Proof.
  intros Hf rows. unfold insert. fold rows.
  rewrite (bind_ok _ _ _ _ _ (request_ok POST t w Hf)).
  unfold mbind at 1, M_bind at 1, db_insert; simpl.
  unfold mbind, M_bind. by rewrite invalidate_related_caches_eq.
Qed.

Lemma insert_refused t data w :
  head (faults w) = Some true →
  insert self t data w = (Raise HTTPError, logged POST t w).
Proof. intros Hf. unfold insert. by rewrite (bind_raise _ _ _ _ _ (request_refused _ _ _ Hf)). Qed.

Lemma update_ok t data filters w :
  head (faults w) ≠ Some true →
  update self t data filters w
  = (Ok ((λ r, data ∪ r) <$> selected t filters w),
     written self PATCH t (<[t := patch data filters <$> table_rows t w]> (db w)) 0 w).
Proof.
  intros Hf. unfold update.
  rewrite (bind_ok _ _ _ _ _ (request_ok PATCH t w Hf)).
  unfold mbind at 1, M_bind at 1, db_update; simpl.
  unfold mbind, M_bind. rewrite invalidate_related_caches_eq.
  unfold written, with_cache, with_db, logged; simpl. by rewrite Nat.add_0_r.
Qed.

Lemma update_refused t data filters w :
  head (faults w) = Some true →
  update self t data filters w = (Raise HTTPError, logged PATCH t w).
Proof. intros Hf. unfold update. by rewrite (bind_raise _ _ _ _ _ (request_refused _ _ _ Hf)). Qed.

Lemma delete_ok t filters w :
  head (faults w) ≠ Some true →
  delete self t filters w
  = (Ok (selected t filters w),
     written self DELETE t
       (<[t := filter (λ r, row_matches filters r ≠ true) (table_rows t w)]> (db w)) 0 w).
Proof.
  intros Hf. unfold delete.
  rewrite (bind_ok _ _ _ _ _ (request_ok DELETE t w Hf)).
  unfold mbind at 1, M_bind at 1, db_delete; simpl.
  unfold mbind, M_bind. rewrite invalidate_related_caches_eq.
  unfold written, with_cache, with_db, logged; simpl. by rewrite Nat.add_0_r.
Qed.

Lemma delete_refused t filters w :
  head (faults w) = Some true →
  delete self t filters w = (Raise HTTPError, logged DELETE t w).
Proof. intros Hf. unfold delete. by rewrite (bind_raise _ _ _ _ _ (request_refused _ _ _ Hf)). Qed.

Lemma update_by_id_ok t id data w :
  head (faults w) ≠ Some true →
  update_by_id self t id data w
  = (Ok (head ((λ r, data ∪ r) <$> selected t {["id" := "eq." +:+ id]} w)),
     written self PATCH t
       (<[t := patch data {["id" := "eq." +:+ id]} <$> table_rows t w]> (db w)) 0 w).
Proof. intros Hf. unfold update_by_id. by rewrite (bind_ok _ _ _ _ _ (update_ok _ _ _ _ Hf)). Qed.

Lemma delete_by_id_ok t id w :
  head (faults w) ≠ Some true →
  delete_by_id self t id w
  = (Ok (head (selected t {["id" := "eq." +:+ id]} w)),
     written self DELETE t
       (<[t := filter (λ r, row_matches {["id" := "eq." +:+ id]} r ≠ true)
                 (table_rows t w)]> (db w)) 0 w).
Proof. intros Hf. unfold delete_by_id. by rewrite (bind_ok _ _ _ _ _ (delete_ok _ _ _ Hf)). Qed.

(** A write of [t] leaves no cache entry for [t] or for a table listed
    for it. *)
Lemma written_purged m t d n w t' h :
  t' ∈ tables_to_invalidate t →
  entries (cache (written self m t d n w)) !! _cache_key self t' h = None.
Proof.
  intros Hin.
  exact (purge_gone (tables_to_invalidate t) (cache w) t' _ Hin (cache_key_prefix t' h)).
Qed.

Lemma written_reliable m t d n w : reliable w → reliable (written self m t d n w).
Proof. unfold reliable; simpl. by intros ->. Qed.




Lemma with_cache_id w : with_cache (λ _, cache w) w = w.
Proof. by destruct w. Qed.

(** A live entry answers the read: no request is sent and nothing
    changes. *)
Lemma get_hit t filters w e :
  cache_truthy (cache w) = true →
  entries (cache w) !! query_key self t filters = Some e →
  expired (cache w) (clock w) e = false →
  get self t filters true w = (Ok (value e), w).
Proof.
  intros Ht He Hx. unfold get, mbind, M_bind, cache_lookup.
  fold (star filters). fold (query_key self t filters).
  rewrite Ht. simpl. unfold cache_get. rewrite He, Hx.
  by rewrite with_cache_id.
Qed.

(** Without caching the read always goes to the store. *)
Lemma get_uncached t filters w :
  head (faults w) ≠ Some true →
  get self t filters false w = (Ok (selected t (star filters) w), logged GET t w).
Proof.
  intros Hf. unfold get, mbind, M_bind, cache_lookup, cache_store. simpl.
  by rewrite (request_ok _ _ _ Hf).
Qed.

(** With no entry under the query's key the read goes to the store. *)
Lemma get_miss t filters w :
  entries (cache w) !! query_key self t filters = None →
  head (faults w) ≠ Some true →
  get self t filters true w
  = (Ok (selected t (star filters) w),
     if cache_truthy (cache w)
     then with_cache (cache_set (clock w) (query_key self t filters)
                        (selected t (star filters) w)) (logged GET t w)
     else logged GET t w).
Proof.
  intros He Hf. unfold get, mbind, M_bind, cache_lookup, cache_store.
  fold (star filters). fold (query_key self t filters). simpl.
  destruct (cache_truthy (cache w)) eqn:Ht; simpl.
  - unfold cache_get. rewrite He, with_cache_id, (request_ok _ _ _ Hf).
    unfold db_select. simpl. by rewrite Ht.
  - rewrite (request_ok _ _ _ Hf). unfold db_select. simpl. by rewrite Ht.
Qed.

Lemma get_miss_trace t filters w :
  entries (cache w) !! query_key self t filters = None →
  trace (get self t filters true w).2 = trace w ++ [(GET, t)].
Proof.
  intros He. unfold get, mbind, M_bind, cache_lookup, cache_store.
  fold (star filters). fold (query_key self t filters). simpl.
  destruct (cache_truthy (cache w)) eqn:Ht; simpl.
  - unfold cache_get. rewrite He, with_cache_id.
    unfold request. destruct (faults w) as [|[] ?]; simpl; try done;
      rewrite ?Ht; done.
  - unfold request. destruct (faults w) as [|[] ?]; simpl; try done;
      rewrite ?Ht; done.
Qed.


End ClientFacts.

(** ** Keyed tables *)




Lemma has_key_col_is n r i :
  has_key n r → col_is r "id" i = bool_decide (r !! "id" = Some (VStr i)).
Proof.
  intros (k & _ & Hid). rewrite (col_is_str _ _ _ _ Hid), Hid.
  apply bool_decide_ext. split; [by intros ->|by intros [= ->]].
Qed.

(** In a keyed table the row with key [i] is the only one an [id] filter
    selects. *)
Lemma keyed_rows_others n l1 item l2 i :
  keyed_rows n (l1 ++ item :: l2) → item !! "id" = Some (VStr i) →
  Forall (λ r, col_is r "id" i = false) (l1 ++ l2) ∧ col_is item "id" i = true.
Proof.
  intros [Hk Hn] Hid.
  rewrite fmap_app, fmap_cons in Hn.
  apply NoDup_app in Hn as (_ & H1 & Hn2).
  apply NoDup_cons in Hn2 as [H2 _].
  apply Forall_app in Hk as [Hk1 Hk2]. apply Forall_cons in Hk2 as [Hki Hk2].
  split.
  - apply Forall_app. split.
    + apply Forall_forall. intros r Hr.
      rewrite (has_key_col_is n) by (by eapply Forall_forall in Hk1).
      apply bool_decide_eq_false_2. intros E.
      apply (H1 (r !! "id")); [by apply list_elem_of_fmap_2|].
      rewrite E, <- Hid. apply elem_of_cons. by left.
    + apply Forall_forall. intros r Hr.
      rewrite (has_key_col_is n) by (by eapply Forall_forall in Hk2).
      apply bool_decide_eq_false_2. intros E.
      apply H2. rewrite Hid, <- E. by apply list_elem_of_fmap_2.
  - rewrite (has_key_col_is n) by done. by apply bool_decide_eq_true_2.
Qed.

Lemma by_id_unselected i data l :
  Forall (λ r, col_is r "id" i = false) l →
  filter (λ r, row_matches {["id" := "eq." +:+ i]} r = true) l = []
  ∧ filter (λ r, row_matches {["id" := "eq." +:+ i]} r ≠ true) l = l
  ∧ patch data {["id" := "eq." +:+ i]} <$> l = l.
Proof.
  induction 1 as [|r l Hr Hl (IH1 & IH2 & IH3)]; [done|].
  assert (Hm : row_matches {["id" := "eq." +:+ i]} r = false) by by rewrite row_matches_id.
  rewrite !filter_cons, fmap_cons. unfold patch at 1. rewrite Hm.
  rewrite decide_False by done. rewrite decide_True by done.
  by rewrite IH1, IH2, IH3.
Qed.

Lemma by_id_selected i data l1 item l2 :
  Forall (λ r, col_is r "id" i = false) (l1 ++ l2) → col_is item "id" i = true →
  filter (λ r, row_matches {["id" := "eq." +:+ i]} r = true) (l1 ++ item :: l2) = [item]
  ∧ filter (λ r, row_matches {["id" := "eq." +:+ i]} r ≠ true) (l1 ++ item :: l2) = l1 ++ l2
  ∧ patch data {["id" := "eq." +:+ i]} <$> (l1 ++ item :: l2) = l1 ++ (data ∪ item) :: l2.
Proof.
  intros [H1 H2]%Forall_app Hi.
  destruct (by_id_unselected i data l1 H1) as (A1 & A2 & A3).
  destruct (by_id_unselected i data l2 H2) as (B1 & B2 & B3).
  assert (Hm : row_matches {["id" := "eq." +:+ i]} item = true) by by rewrite row_matches_id.
  rewrite !filter_app, !filter_cons, fmap_app, fmap_cons. unfold patch at 2. rewrite Hm.
  rewrite decide_True by done. rewrite decide_False by (by intros []).
  by rewrite A1, A2, A3, B1, B2, B3.
Qed.




(** ** Worlds after a write *)

Lemma reliable_head w : reliable w → head (faults w) ≠ Some true.
Proof. unfold reliable. by intros ->. Qed.

Lemma table_rows_written self m t d n w t' :
  table_rows t' (written self m t d n w) = d !!! t'.
Proof. done. Qed.


Section InventorySteps.

Variable self : SupabaseClient.
Hypothesis digest_inj : Inj (=) (=) (query_digest self).















End InventorySteps.

(** ** Totals per key *)



















(** ** Ledger conservation, call by call *)

Section Conservation.

Variable self : SupabaseClient.
Hypothesis digest_inj : Inj (=) (=) (query_digest self).







End Conservation.

(** ** Currency mutators, step by step *)













Section CurrencySteps.

Variable self : SupabaseClient.
Hypothesis digest_inj : Inj (=) (=) (query_digest self).



End CurrencySteps.

(** * The claims *)

(** ** Concrete worlds *)


Lemma coherent_empty self t w : entries (cache w) = ∅ → coherent self t w.
Proof. intros He p e H. by rewrite He, lookup_empty in H. Qed.



Lemma items_ok_potion self : items_ok self potion_world.
Proof.
  split_and!; [done|by apply coherent_empty| |].
  - split.
    + apply Forall_singleton. exists 0%nat. split; [simpl; lia|done].
    + apply NoDup_singleton.
  - apply Forall_singleton. by exists 2.
Qed.

(** ** Cache invalidation on writes *)

Lemma run_write_ok self table call w :
  (run_write self table call w).1 = Ok () →
  ∃ d n m, (run_write self table call w).2 = written self m table d n w.
Proof.
  intros Hok.
  destruct (decide (head (faults w) = Some true)) as [Hf|Hf].
  - destruct call; simpl in Hok;
      unfold update_by_id, delete_by_id in Hok;
      unfold mbind, M_bind in Hok;
      rewrite ?(insert_refused _ _ _ _ Hf), ?(update_refused _ _ _ _ _ Hf),
        ?(delete_refused _ _ _ _ Hf) in Hok; done.
  - destruct call; simpl; unfold mbind, M_bind.
    + rewrite (insert_ok _ _ _ _ Hf). simpl. eauto.
    + rewrite (update_ok _ _ _ _ _ Hf). simpl. eauto.
    + rewrite (delete_ok _ _ _ _ Hf). simpl. eauto.
    + rewrite (update_by_id_ok _ _ _ _ _ Hf). simpl. eauto.
    + rewrite (delete_by_id_ok _ _ _ _ Hf). simpl. eauto.
Qed.

(** C6. A successful insert, update, delete, update-by-id or delete-by-id
    on [table] leaves no cache entry for [table] nor for any table or view
    listed for it in the dependency map; a read of such a table right after
    the write therefore sends a GET to the store. *)
Theorem write_invalidates_dependents self table call w t filters :
  (run_write self table call w).1 = Ok () →
  t = table ∨ listed_for table t →
  let w' := (run_write self table call w).2 in
  (∀ h, entries (cache w') !! _cache_key self t h = None)
  ∧ trace (get self t filters true w').2 = trace w' ++ [(GET, t)].
Proof.
  intros Hok Ht w'.
  assert (Hin : t ∈ tables_to_invalidate table).
  { unfold tables_to_invalidate. destruct Ht as [->|(deps & Hd & Hin)].
    - apply elem_of_cons. by left.
    - rewrite Hd. apply elem_of_cons. by right. }
  destruct (run_write_ok _ _ _ _ Hok) as (d & n & m & Hw).
  assert (Hgone : ∀ h, entries (cache w') !! _cache_key self t h = None).
  { intros h. subst w'. rewrite Hw. by apply written_purged. }
  split; [done|]. apply get_miss_trace. apply Hgone.
Qed.

Lemma write_invalidates_dependents_witness :
  let w' := (run_write demo "inventory_current"
               (CallInsert (One {[ "item_name" := VStr "Torch" ]})) viewed_world).2 in
  (∀ h, entries (cache w') !! _cache_key demo "v_inventory" h = None)
  ∧ trace (get demo "v_inventory" ∅ true w').2 = trace w' ++ [(GET, "v_inventory")].
Proof.
  apply (write_invalidates_dependents demo "inventory_current"
           (CallInsert (One {[ "item_name" := VStr "Torch" ]})) viewed_world
           "v_inventory" ∅).
  - vm_compute. reflexivity.
  - right. exists ["v_inventory"; "inventory_ledger"]. split.
    + vm_compute. reflexivity.
    + apply elem_of_cons. by left.
Defined.

(** Before the write the view's answer came from the cache. *)
Example viewed_world_hit :
  get demo "v_inventory" ∅ true viewed_world = (Ok [], viewed_world).
Proof. by vm_compute. Qed.

(** ** Removal of a whole row *)




(** ** Ledger conservation *)




Example orderly_calls_balance :
  let w := run_items exact orderly_calls empty_world in
  (ledger_sum "locA" "Potion of Healing" w, stock "locA" "Potion of Healing" w,
   ledger_sum "locB" "Potion of Healing" w, stock "locB" "Potion of Healing" w)
  = (0, 0, 3, 3).
Proof. by vm_compute. Qed.

(** ** A second add_item for the same key *)

(** C4: add_item inserts whatever the table holds.  Adding two potions and
    then three more leaves two rows for the key, with quantities 2 and 3,
    where transfer_item and add_currency would have patched the row that
    is there. *)
Example second_add_item_inserts_second_row :
  let w := run_items demo
             [ AddItem "locA" "Potion of Healing" 2 false None None None false None None;
               AddItem "locA" "Potion of Healing" 3 false None None None false None None ]
             empty_world in
  quantity_of <$> held "locA" "Potion of Healing" w = [2; 3]
  ∧ trace w = [ (POST, "inventory_current"); (POST, "inventory_ledger");
                (POST, "inventory_current"); (POST, "inventory_ledger") ].
Proof. by vm_compute. Qed.

(** ** A zero quantity *)


Lemma zero_is_none_remove self loc name reason w :
  remove_item self loc name (Some 0) reason w = remove_item self loc name None reason w.
Proof. reflexivity. Qed.

Lemma zero_is_none_transfer self from to name reason w :
  transfer_item self from to name (Some 0) reason w
  = transfer_item self from to name None reason w.
Proof. reflexivity. Qed.



(** ** Currency never goes negative *)






Example greedy_removals_balance :
  (λ r, coin_of r <$> coins)
    <$> purse "locA" (replay (removal exact "locA" <$> greedy_removals) treasury_world).2
  = [[0; 0; 0; 0; 0]].
Proof. by vm_compute. Qed.

(** ** Currency transfer *)

(** C8. transfer_currency is remove_currency at the source followed by
    add_currency at the destination, nothing more: the world it leaves is
    the one the two calls leave, also when the second of them raises. *)
Theorem transfer_currency_is_remove_then_add self from to c s e g p reason w :
  transfer_currency self from to c s e g p reason w
  = remove_then_add self from to c s e g p reason w.
Proof.
  unfold transfer_currency, remove_then_add, mbind, M_bind.
  destruct (remove_currency self from c s e g p _ w) as [[r|x] w1]; simpl; [|done].
  by destruct (add_currency self to c s e g p _ w1) as [[r'|x] w2].
Qed.

(** No rollback: the store refuses the write that would credit location B;
    the transfer raises, location A stays debited, B has no record, and the
    ledger holds the removal alone. *)
Example transfer_currency_keeps_the_debit :
  let run := transfer_currency demo "locA" "locB" 2 0 0 1 0 None failing_world in
  run.1 = Raise HTTPError
  ∧ (λ r, coin_of r <$> coins) <$> purse "locA" run.2 = [[3; 3; 0; 9; 0]]
  ∧ purse "locB" run.2 = []
  ∧ (λ e : Row, e !! "transaction_type") <$> table_rows "currency_ledger" run.2
    = [Some (VStr "remove")].
Proof. by vm_compute. Qed.


Lemma col_is_patched (balance r : Row) col v :
  balance !! col = None → col_is (balance ∪ r) col v = col_is r col v.
Proof. intros Hb. unfold col_is. by rewrite lookup_union_r. Qed.



Example transfer_from_nowhere :
  let run := transfer_currency demo "locB" "locA" 1 2 0 0 0 None treasury_world in
  run.1 = Ok (RCurrencyTransferred 1 2 0 0 0)
  ∧ (λ r, coin_of r <$> coins) <$> purse "locA" run.2 = [[6; 5; 0; 10; 0]]
  ∧ purse "locB" run.2 = []
  ∧ (λ e : Row, e !! "transaction_type") <$> table_rows "currency_ledger" run.2
    = [Some (VStr "add")].
Proof. by vm_compute. Qed.

(** ** The mutators read through the cache *)

Lemma get_cached self t filters w rows :
  cached self t filters w rows → get self t filters true w = (Ok rows, w).
Proof. intros (Ht & e & He & Hx & <-). by apply get_hit. Qed.

Lemma add_item_trace self loc name q magic rarity kind descr attune notes reason w :
  let w' := (add_item self loc name q magic rarity kind descr attune notes reason w).2 in
  trace w' = trace w ++ [(POST, "inventory_current")]
  ∨ trace w' = trace w ++ [(POST, "inventory_current"); (POST, "inventory_ledger")].
Proof.
  unfold add_item.
  destruct (decide (head (faults w) = Some true)) as [Hf|Hf].
  { left. by rewrite (bind_raise _ _ _ _ _ (insert_refused self _ _ w Hf)). }
  right. rewrite (bind_ok _ _ _ _ _ (insert_ok self _ _ w Hf)).
  set (w1 := written self POST "inventory_current" _ _ w).
  destruct (decide (head (faults w1) = Some true)) as [Hf1|Hf1].
  - rewrite (bind_raise _ _ _ _ _ (insert_refused self _ _ w1 Hf1)). simpl.
    by rewrite <- app_assoc.
  - rewrite (bind_ok _ _ _ _ _ (insert_ok self _ _ w1 Hf1)). simpl.
    by rewrite <- app_assoc.
Qed.

(** C3, at work: the store holds two potions, the cache still says five.
    remove_item sends no GET, records a removal of five and deletes the
    row. *)
Lemma remove_item_trusts_the_cache :
  let run := remove_item demo "locA" "Potion of Healing" None None stale_world in
  quantity_of <$> held "locA" "Potion of Healing" stale_world = [2]
  ∧ trace run.2 = [(POST, "inventory_ledger"); (DELETE, "inventory_current")]
  ∧ (λ e : Row, e !! "quantity") <$> table_rows "inventory_ledger" run.2 = [Some (VInt 5)].
Proof. by vm_compute. Qed.

(** C3, as the code has it: the mutators read with caching enabled.  When
    the cache holds a live answer for the query of its first read, each of
    remove_item, transfer_item, add_currency, remove_currency and
    transfer_currency goes on from the cached rows in the same world, with
    no request sent for that read; add_item sends no GET at all. *)
Theorem mutators_read_through_cache self loc to name q reason c s e g p
    n magic rarity kind descr attune notes w items balances :
  cached self "inventory_current" (item_filters loc name) w items →
  cached self "currency_current" (location_filter loc) w balances →
  remove_item self loc name q reason w = remove_item_from self items loc name q reason w
  ∧ transfer_item self loc to name q reason w
    = transfer_item_from self items loc to name q reason w
  ∧ add_currency self loc c s e g p reason w
    = add_currency_from self balances loc c s e g p reason w
  ∧ remove_currency self loc c s e g p reason w
    = remove_currency_from self balances loc c s e g p reason w
  ∧ transfer_currency self loc to c s e g p reason w
    = (_ ← remove_currency_from self balances loc c s e g p
             (Some ("Transfer to another location: " +:+ reason_text reason));
       _ ← add_currency self to c s e g p
             (Some ("Transfer from another location: " +:+ reason_text reason));
       mret (RCurrencyTransferred c s e g p)) w
  ∧ (GET, "inventory_current")
    ∉ drop (length (trace w))
        (trace (add_item self loc name n magic rarity kind descr attune notes reason w).2).
Proof.
  intros Hitems Hcoins.
  pose proof (get_cached _ _ _ _ _ Hitems) as Hget1.
  pose proof (get_cached _ _ _ _ _ Hcoins) as Hget2.
  split_and!.
  - unfold remove_item. by rewrite (bind_ok _ _ _ _ _ Hget1).
  - unfold transfer_item. by rewrite (bind_ok _ _ _ _ _ Hget1).
  - unfold add_currency. by rewrite (bind_ok _ _ _ _ _ Hget2).
  - unfold remove_currency. by rewrite (bind_ok _ _ _ _ _ Hget2).
  - unfold transfer_currency, remove_currency.
    rewrite bind_assoc. by rewrite (bind_ok _ _ _ _ _ Hget2).
  - destruct (add_item_trace self loc name n magic rarity kind descr attune notes
                reason w) as [-> | ->];
      rewrite drop_app_length; intros Hin;
      repeat (apply elem_of_cons in Hin as [Hin|Hin]; [done|]);
      by apply elem_of_nil in Hin.
Qed.

Lemma cached_warm_items :
  cached demo "inventory_current" (item_filters "locA" "Potion of Healing") warm_world
    [stale_row].
Proof. split; [by vm_compute|]. eexists. split_and!; by vm_compute. Qed.

Lemma cached_warm_coins :
  cached demo "currency_current" (location_filter "locA") warm_world [].
Proof. split; [by vm_compute|]. eexists. split_and!; by vm_compute. Qed.

Lemma mutators_read_through_cache_witness :
  remove_item demo "locA" "Potion of Healing" None None warm_world
  = remove_item_from demo [stale_row] "locA" "Potion of Healing" None None warm_world
  ∧ transfer_item demo "locA" "locB" "Potion of Healing" None None warm_world
    = transfer_item_from demo [stale_row] "locA" "locB" "Potion of Healing" None None
        warm_world
  ∧ add_currency demo "locA" 1 0 0 0 0 None warm_world
    = add_currency_from demo [] "locA" 1 0 0 0 0 None warm_world
  ∧ remove_currency demo "locA" 1 0 0 0 0 None warm_world
    = remove_currency_from demo [] "locA" 1 0 0 0 0 None warm_world
  ∧ transfer_currency demo "locA" "locB" 1 0 0 0 0 None warm_world
    = (_ ← remove_currency_from demo [] "locA" 1 0 0 0 0
             (Some ("Transfer to another location: " +:+ reason_text None));
       _ ← add_currency demo "locB" 1 0 0 0 0
             (Some ("Transfer from another location: " +:+ reason_text None));
       mret (RCurrencyTransferred 1 0 0 0 0)) warm_world
  ∧ (GET, "inventory_current")
    ∉ drop (length (trace warm_world))
        (trace (add_item demo "locA" "Potion of Healing" 1 false None None
                  None false None None warm_world).2).
Proof.
  apply (mutators_read_through_cache demo "locA" "locB" "Potion of Healing" None None
           1 0 0 0 0 1 false None None None false None warm_world [stale_row] []).
  - apply cached_warm_items.
  - apply cached_warm_coins.
Defined.

(** In the warm world the cached empty answer hides location A's record:
    remove_currency reports that there is none. *)
Example remove_currency_trusts_the_cache :
  (remove_currency demo "locA" 1 0 0 0 0 None warm_world).1
  = Ok (RError "No currency record found for this location")
  ∧ (λ r, coin_of r <$> coins) <$> purse "locA" warm_world = [[5; 3; 0; 10; 0]].
Proof. by vm_compute. Qed.

(** ** What the mutators return *)






(** A failure of the first read is not turned into a reply: it propagates. *)
Example read_failure_propagates :
  (remove_item demo "locA" "Potion of Healing" None None unreachable_world).1
  = Raise HTTPError
  ∧ (transfer_item demo "locA" "locB" "Potion of Healing" None None unreachable_world).1
    = Raise HTTPError
  ∧ db (remove_item demo "locA" "Potion of Healing" None None unreachable_world).2
    = db unreachable_world.
Proof. by vm_compute. Qed.

(** * Further properties of the client *)

(** ** Reading back what was written *)

Ltac unreserved := apply (bool_decide_unpack _); by vm_compute.

Lemma row_matches_star_id r i :
  row_matches (star {["id" := "eq." +:+ i]}) r = col_is r "id" i.
Proof.
  change (star {["id" := "eq." +:+ i]})
    with (<["id" := "eq." +:+ i]> (<["select" := "*"]> ∅) : gmap string string).
  rewrite !row_matches_insert, row_matches_empty by done.
  rewrite !cond_holds_eq by unreserved.
  by rewrite andb_true_r.
Qed.

Lemma clear_prefix_kept p c k :
  ¬ starts_with p k → entries (clear_prefix p c).2 !! k = entries c !! k.
Proof.
  intros Hk. apply option_eq. intros e. rewrite clear_prefix_lookup_Some. tauto.
Qed.

Section ReadBack.

Variable self : SupabaseClient.

Lemma purge_kept ts c k :
  (∀ t, t ∈ ts → ¬ starts_with (table_prefix self t) k) →
  entries (purge self ts c) !! k = entries c !! k.
Proof.
  revert c. induction ts as [|t ts IH]; intros c Hk; simpl; [done|].
  rewrite IH by (intros t' Ht'; apply Hk; by right).
  apply clear_prefix_kept, Hk. by left.
Qed.

(** The first read of a table after a write to it goes to the store,
    cached or not. *)
Lemma get_after_write m t d n w filters use_cache :
  reliable w →
  ∃ w2, get self t filters use_cache (written self m t d n w)
        = (Ok (filter (λ r, row_matches (star filters) r = true) (d !!! t)), w2)
        ∧ db w2 = d ∧ reliable w2.
Proof.
  intros Hr.
  assert (Hr1 : reliable (written self m t d n w)) by by apply written_reliable.
  assert (Hh : head (faults (written self m t d n w)) ≠ Some true)
    by by apply reliable_head.
  assert (Hl : reliable (logged GET t (written self m t d n w))).
  { unfold reliable in *. simpl. by rewrite Hr. }
  destruct use_cache.
  - rewrite get_miss; [|apply written_purged; by left|done].
    unfold selected. rewrite table_rows_written.
    eexists. split; [done|]. by destruct (cache_truthy _).
  - rewrite get_uncached by done.
    unfold selected. rewrite table_rows_written. by eexists.
Qed.

Lemma get_by_id_after_write m t d n w i use_cache :
  reliable w →
  ∃ w2, get_by_id self t i use_cache (written self m t d n w)
        = (Ok (head (filter (λ r, col_is r "id" i = true) (d !!! t))), w2)
        ∧ db w2 = d ∧ reliable w2.
Proof.
  intros Hr.
  destruct (get_after_write m t d n w {["id" := "eq." +:+ i]} use_cache Hr)
    as (w2 & Hget & Hdb & Hr2).
  exists w2. split; [|done].
  unfold get_by_id. rewrite (bind_ok _ _ _ _ _ Hget). unfold mret, M_ret.
  do 3 f_equal. apply list_filter_iff. intros r. by rewrite row_matches_star_id.
Qed.

Lemma fresh_key_unselected n rows :
  keyed_rows n rows → filter (λ r, col_is r "id" (gen_id n) = true) rows = [].
Proof.
  intros [Hk _]. induction Hk as [|r rows (k & Hlt & Hid) _ IH]; [done|].
  rewrite filter_cons_False; [done|].
  rewrite (col_is_str _ _ _ _ Hid), bool_decide_eq_true.
  intros Heq%gen_id_inj. lia.
Qed.

End ReadBack.


Lemma col_is_selected i l1 (item : Row) l2 :
  Forall (λ r, col_is r "id" i = false) (l1 ++ l2) → col_is item "id" i = true →
  filter (λ r, col_is r "id" i = true) (l1 ++ item :: l2) = [item].
Proof.
  intros Hoth Hit.
  destruct (by_id_selected i ∅ l1 item l2 Hoth Hit) as (Hsel & _ & _).
  rewrite <- Hsel. apply list_filter_iff. intros r. by rewrite row_matches_id.
Qed.

Lemma keyed_potion : keyed "inventory_current" potion_world.
Proof. by destruct (items_ok_potion exact) as (_ & _ & Hk & _). Qed.

(** X1.  Insert and look up: a row inserted into a table whose rows carry
    keys handed out by the store is returned under a fresh key, and
    [get_by_id] with that key then returns exactly the stored row, with
    or without the cache. *)
Theorem insert_then_get_by_id self t row use_cache w :
  reliable w → keyed t w →
  let stored := <["id" := VStr (gen_id (next_id w))]> row in
  ∃ w1 w2,
    insert self t (One row) w = (Ok [stored], w1)
    ∧ get_by_id self t (gen_id (next_id w)) use_cache w1 = (Ok (Some stored), w2).
Proof.
  intros Hr Hk stored.
  rewrite insert_ok by by apply reliable_head.
  cbn [assign_ids length]. fold stored.
  eexists.
  destruct (get_by_id_after_write self POST t
              (<[t := table_rows t w ++ [stored]]> (db w)) 1 w
              (gen_id (next_id w)) use_cache Hr) as (w2 & Hget & _).
  exists w2. split; [done|]. rewrite Hget.
  rewrite lookup_total_insert_eq.
  rewrite filter_app, (fresh_key_unselected _ _ Hk).
  rewrite filter_cons_True; [done|].
  unfold stored. by rewrite (col_is_str _ _ (gen_id (next_id w))), bool_decide_eq_true
    by apply lookup_insert_eq.
Qed.

Lemma insert_then_get_by_id_witness :
  ∃ w1 w2,
    insert exact "inventory_current" (One {["item_name" := VStr "Torch"]}) potion_world
    = (Ok [<["id" := VStr (gen_id 1)]> {["item_name" := VStr "Torch"]}], w1)
    ∧ get_by_id exact "inventory_current" (gen_id 1) true w1
      = (Ok (Some (<["id" := VStr (gen_id 1)]> {["item_name" := VStr "Torch"]})), w2).
Proof.
  apply (insert_then_get_by_id exact "inventory_current" {["item_name" := VStr "Torch"]}
           true potion_world); [done|apply keyed_potion].
Defined.

(** X2.  Update and look up: [update_by_id] on the key of a row of a keyed
    table returns that row with the new columns merged in, and [get_by_id]
    then reads the same row back, also through the cache.  The patch must
    not rewrite the key itself. *)
Theorem update_by_id_then_get_by_id self t i data r use_cache w :
  reliable w → keyed t w → data !! "id" = None →
  r ∈ table_rows t w → r !! "id" = Some (VStr i) →
  ∃ w1 w2,
    update_by_id self t i data w = (Ok (Some (data ∪ r)), w1)
    ∧ length (table_rows t w1) = length (table_rows t w)
    ∧ get_by_id self t i use_cache w1 = (Ok (Some (data ∪ r)), w2).
Proof.
  intros Hr Hk Hd Hin Hid.
  apply list_elem_of_split in Hin as (l1 & l2 & Hrows).
  unfold keyed in Hk. rewrite Hrows in Hk.
  destruct (keyed_rows_others _ _ _ _ _ Hk Hid) as [Hoth Hit].
  destruct (by_id_selected i data l1 r l2 Hoth Hit) as (Hsel & _ & Hpatch).
  rewrite update_by_id_ok by by apply reliable_head.
  unfold selected. rewrite Hrows, Hsel, Hpatch.
  eexists.
  destruct (get_by_id_after_write self PATCH t
              (<[t := l1 ++ (data ∪ r) :: l2]> (db w)) 0 w i use_cache Hr)
    as (w2 & Hget & _).
  exists w2. split; [done|]. split.
  - rewrite table_rows_written, lookup_total_insert_eq, !length_app. done.
  - rewrite Hget, lookup_total_insert_eq, col_is_selected; [done|done|].
    by rewrite col_is_patched.
Qed.

Lemma update_by_id_then_get_by_id_witness :
  ∃ w1 w2,
    update_by_id exact "inventory_current" "row-0" {["quantity" := VInt 7]} potion_world
    = (Ok (Some ({["quantity" := VInt 7]} ∪ potion_row)), w1)
    ∧ length (table_rows "inventory_current" w1)
      = length (table_rows "inventory_current" potion_world)
    ∧ get_by_id exact "inventory_current" "row-0" true w1
      = (Ok (Some ({["quantity" := VInt 7]} ∪ potion_row)), w2).
Proof.
  apply (update_by_id_then_get_by_id exact "inventory_current" "row-0"
           {["quantity" := VInt 7]} potion_row true potion_world);
    [done|apply keyed_potion|done|by left|done].
Defined.



(** ** Diary entries and companions, by key *)




(** X5.  [update_diary_entry] on an existing entry of a keyed table,
    followed by [get_diary_entry], reads the merged entry back; a
    following [delete_diary_entry] answers [True]; and a last
    [get_diary_entry] finds nothing. *)
Theorem diary_entry_lifecycle self e data r w :
  reliable w → keyed "diary_entries" w → data !! "id" = None →
  r ∈ table_rows "diary_entries" w → r !! "id" = Some (VStr e) →
  ∃ w1 w2 w3 w4,
    update_diary_entry self e data w = (Ok (Some (data ∪ r)), w1)
    ∧ get_diary_entry self e w1 = (Ok (Some (data ∪ r)), w2)
    ∧ delete_diary_entry self e w2 = (Ok true, w3)
    ∧ get_diary_entry self e w3 = (Ok None, w4).
Proof.
  intros Hr Hk Hd Hin Hid.
  apply list_elem_of_split in Hin as (l1 & l2 & Hrows).
  unfold keyed in Hk. rewrite Hrows in Hk.
  destruct (keyed_rows_others _ _ _ _ _ Hk Hid) as [Hoth Hit].
  destruct (by_id_selected e data l1 r l2 Hoth Hit) as (Hsel & _ & Hpatch).
  assert (Hit' : col_is (data ∪ r) "id" e = true) by by rewrite col_is_patched.
  unfold update_diary_entry, get_diary_entry, delete_diary_entry.
  rewrite update_by_id_ok by by apply reliable_head.
  unfold selected. rewrite Hrows, Hsel, Hpatch.
  eexists.
  destruct (get_by_id_after_write self PATCH "diary_entries"
              (<["diary_entries" := l1 ++ (data ∪ r) :: l2]> (db w)) 0 w e true Hr)
    as (w2 & Hget & Hdb & Hr2).
  exists w2.
  assert (Hrows2 : table_rows "diary_entries" w2 = l1 ++ (data ∪ r) :: l2).
  { unfold table_rows. by rewrite Hdb, lookup_total_insert_eq. }
  destruct (by_id_selected e ∅ l1 (data ∪ r) l2 Hoth Hit') as (Hsel2 & Hrest2 & _).
  rewrite (bind_ok _ _ _ _ _ (delete_by_id_ok self _ _ _ (reliable_head _ Hr2))).
  unfold selected. rewrite Hrows2, Hsel2, Hrest2.
  eexists.
  destruct (get_by_id_after_write self DELETE "diary_entries"
              (<["diary_entries" := l1 ++ l2]> (db w2)) 0 w2 e true Hr2)
    as (w4 & Hget4 & _).
  exists w4. split_and!; [done| |done|].
  - by rewrite Hget, lookup_total_insert_eq, col_is_selected.
  - rewrite Hget4, lookup_total_insert_eq.
    do 3 f_equal. clear -Hoth. induction Hoth as [|x l Hx _ IH]; [done|].
    rewrite filter_cons_False; [done|]. by rewrite Hx.
Qed.

Lemma keyed_journal_diary : keyed "diary_entries" journal_world.
Proof.
  split; [|apply NoDup_singleton].
  apply Forall_singleton. exists 0%nat. split; [simpl; lia|done].
Qed.

Lemma keyed_journal_companions : keyed "character_companions" journal_world.
Proof.
  split; [|apply NoDup_singleton].
  apply Forall_singleton. exists 1%nat. split; [simpl; lia|done].
Qed.

Lemma diary_entry_lifecycle_witness :
  ∃ w1 w2 w3 w4,
    update_diary_entry exact "row-0" {["title" := VStr "The crossing"]} journal_world
    = (Ok (Some ({["title" := VStr "The crossing"]} ∪ diary_row)), w1)
    ∧ get_diary_entry exact "row-0" w1
      = (Ok (Some ({["title" := VStr "The crossing"]} ∪ diary_row)), w2)
    ∧ delete_diary_entry exact "row-0" w2 = (Ok true, w3)
    ∧ get_diary_entry exact "row-0" w3 = (Ok None, w4).
Proof.
  apply (diary_entry_lifecycle exact "row-0" {["title" := VStr "The crossing"]} diary_row
           journal_world); [done|apply keyed_journal_diary|done|by left|done].
Defined.

(** X6.  [update_companion_hp] writes the hit points it is given, whatever
    they are, into the one companion that carries the key: the rows
    before and after it stay as they were, and so does every other column
    of the companion. *)
Theorem update_companion_hp_touches_one_row self i hp r l1 l2 w :
  reliable w → keyed "character_companions" w →
  table_rows "character_companions" w = l1 ++ r :: l2 →
  r !! "id" = Some (VStr i) →
  ∃ w1,
    update_companion_hp self i hp w
    = (Ok (Some (<["hit_points_current" := VInt hp]> r)), w1)
    ∧ table_rows "character_companions" w1
      = l1 ++ <["hit_points_current" := VInt hp]> r :: l2.
Proof.
  intros Hr Hk Hrows Hid.
  unfold keyed in Hk. rewrite Hrows in Hk.
  destruct (keyed_rows_others _ _ _ _ _ Hk Hid) as [Hoth Hit].
  destruct (by_id_selected i {["hit_points_current" := VInt hp]} l1 r l2 Hoth Hit)
    as (Hsel & _ & Hpatch).
  unfold update_companion_hp.
  rewrite update_by_id_ok by by apply reliable_head.
  unfold selected. rewrite Hrows, Hsel, Hpatch.
  cbn [fmap list_fmap head]. rewrite <- !insert_union_singleton_l.
  eexists. split; [done|].
  by rewrite table_rows_written, lookup_total_insert_eq.
Qed.

Lemma update_companion_hp_touches_one_row_witness :
  ∃ w1,
    update_companion_hp exact "row-1" (-3) journal_world
    = (Ok (Some (<["hit_points_current" := VInt (-3)]> companion_row)), w1)
    ∧ table_rows "character_companions" w1
      = [] ++ <["hit_points_current" := VInt (-3)]> companion_row :: [].
Proof.
  apply (update_companion_hp_touches_one_row exact "row-1" (-3) companion_row [] []
           journal_world); [done|apply keyed_journal_companions|done|done].
Defined.

(** ** Failure and the cache *)

(** X7.  A write the store refuses raises the HTTP error and changes
    nothing on this side: no table, no key counter, and in particular no
    cache entry, since the invalidation is never reached. *)
Theorem refused_write_changes_nothing self table call w :
  head (faults w) = Some true →
  let run := run_write self table call w in
  run.1 = Raise HTTPError
  ∧ db run.2 = db w ∧ next_id run.2 = next_id w ∧ cache run.2 = cache w
  ∧ length (trace run.2) = S (length (trace w)).
Proof.
  intros Hf.
  assert (Hlen : ∀ m, length (trace (logged m table w)) = S (length (trace w))).
  { intros m. simpl. rewrite length_app. simpl. lia. }
  destruct call as [data|data filters|filters|id data|id]; cbn [run_write]; cbv zeta.
  - rewrite (bind_raise _ _ _ _ _ (insert_refused self _ _ _ Hf)). split_and!; try done; apply Hlen.
  - rewrite (bind_raise _ _ _ _ _ (update_refused self _ _ _ _ Hf)). split_and!; try done; apply Hlen.
  - rewrite (bind_raise _ _ _ _ _ (delete_refused self _ _ _ Hf)). split_and!; try done; apply Hlen.
  - unfold update_by_id. rewrite bind_assoc.
    rewrite (bind_raise _ _ _ _ _ (update_refused self _ _ _ _ Hf)). split_and!; try done; apply Hlen.
  - unfold delete_by_id. rewrite bind_assoc.
    rewrite (bind_raise _ _ _ _ _ (delete_refused self _ _ _ Hf)). split_and!; try done; apply Hlen.
Qed.

Lemma refused_write_changes_nothing_witness :
  let run := run_write demo "inventory_current" (CallDeleteById "row-0")
               unreachable_world in
  run.1 = Raise HTTPError
  ∧ db run.2 = db unreachable_world ∧ next_id run.2 = next_id unreachable_world
  ∧ cache run.2 = cache unreachable_world
  ∧ length (trace run.2) = S (length (trace unreachable_world)).
Proof.
  by apply (refused_write_changes_nothing demo "inventory_current" (CallDeleteById "row-0")
              unreachable_world).
Defined.


(** X9.  A cached read that returned and left a non-empty cache behind is
    answered from the cache when it is repeated at once: the same rows
    come back, no request is sent and nothing changes. *)
Theorem repeated_get_is_answered_by_cache self t filters w rows w1 :
  0 ≤ ttl (cache w) →
  get self t filters true w = (Ok rows, w1) →
  cache_truthy (cache w1) = true →
  get self t filters true w1 = (Ok rows, w1).
Proof.
  intros Httl Hget Ht1.
  assert (Hfresh : ∀ c, ttl c = ttl (cache w) → expired c (clock w) (mkEntry rows (clock w)) = false).
  { intros c Hc. unfold expired. rewrite Hc. simpl. apply Z.ltb_ge. lia. }
  unfold get, mbind, M_bind, mret, M_ret, cache_lookup, cache_store in Hget.
  fold (star filters) in Hget. fold (query_key self t filters) in Hget.
  simpl in Hget.
  destruct (cache_truthy (cache w)) eqn:Ht.
  2:{ unfold request, db_select in Hget. simpl in Hget.
      destruct (faults w) as [|[] ?]; simpl in Hget; rewrite ?Ht in Hget;
        simplify_eq; simpl in Ht1; congruence. }
  unfold cache_get in Hget.
  destruct (entries (cache w) !! query_key self t filters) as [e|] eqn:He.
  - destruct (expired (cache w) (clock w) e) eqn:Hx.
    + unfold request, db_select in Hget. simpl in Hget.
      destruct (faults w) as [|[] ?]; simpl in Hget; try done;
        (destruct (cache_truthy (mkCache _ _)) eqn:Ht2;
         [|simplify_eq; simpl in Ht1; congruence]);
        simplify_eq;
        (apply (get_hit self t filters _ (mkEntry _ (clock w)));
         [done|by apply lookup_insert_eq|by apply Hfresh]).
    + rewrite with_cache_id in Hget. simplify_eq.
      by apply get_hit.
  - rewrite with_cache_id in Hget.
    unfold request, db_select in Hget. simpl in Hget.
    destruct (faults w) as [|[] ?]; simpl in Hget; try done;
      rewrite Ht in Hget; simplify_eq;
      (apply (get_hit self t filters _ (mkEntry _ (clock w)));
         [done|by apply lookup_insert_eq|by apply Hfresh]).
Qed.

Lemma repeated_get_is_answered_by_cache_witness :
  let w1 := (get demo "inventory_current" ∅ true history_world).2 in
  get demo "inventory_current" ∅ true w1 = (Ok [], w1).
Proof.
  apply (repeated_get_is_answered_by_cache demo "inventory_current" ∅ history_world []
           (get demo "inventory_current" ∅ true history_world).2);
    [done|by vm_compute|by vm_compute].
Defined.

(** ** What a write invalidates, exactly *)

Lemma longer_name_prefix self t s h :
  starts_with (table_prefix self t) (_cache_key self (t +:+ "_" +:+ s) h).
Proof.
  unfold starts_with, table_prefix, _cache_key.
  replace (cache_prefix self +:+ "_" +:+ (t +:+ "_" +:+ s) +:+ "_" +:+ h)
    with ((cache_prefix self +:+ "_" +:+ t +:+ "_") +:+ s +:+ "_" +:+ h).
  - apply prefix_app.
  - by rewrite !app_assoc_str.
Qed.

(** X10.  Invalidation goes by key prefix, so it reaches further than the
    dependency map says: a successful write to [table] also drops the
    cached answers of every table or view whose name continues the name of
    an invalidated one after an underscore, such as [v_inventory_history]
    after a write to [inventory_current]. *)
Theorem write_clears_longer_names self table call w t s h :
  (run_write self table call w).1 = Ok () →
  t ∈ tables_to_invalidate table →
  entries (cache (run_write self table call w).2) !! _cache_key self (t +:+ "_" +:+ s) h
  = None.
Proof.
  intros Hok Ht.
  destruct (run_write_ok self table call w Hok) as (d & n & m & ->).
  exact (purge_gone self (tables_to_invalidate table) (cache w) t _ Ht
           (longer_name_prefix self t s h)).
Qed.

Lemma write_clears_longer_names_witness :
  ("v_inventory_history" ∉ tables_to_invalidate "inventory_current")
  ∧ is_Some (entries (cache history_world) !! query_key demo "v_inventory_history" ∅)
  ∧ entries (cache (run_write demo "inventory_current"
                      (CallInsert (One {["item_name" := VStr "Torch"]})) history_world).2)
      !! _cache_key demo ("v_inventory" +:+ "_" +:+ "history") (_hash_query demo (star ∅))
    = None.
Proof.
  split_and!.
  - apply (bool_decide_unpack _). by vm_compute.
  - vm_compute. by eexists.
  - apply (write_clears_longer_names demo "inventory_current"
             (CallInsert (One {["item_name" := VStr "Torch"]})) history_world
             "v_inventory" "history" (_hash_query demo (star ∅))).
    + by vm_compute.
    + apply (bool_decide_unpack _). by vm_compute.
Defined.

(** X11.  A successful write leaves alone every cache entry whose key
    starts with none of the prefixes of the tables it invalidates. *)
Theorem write_keeps_other_entries self table call w k :
  (run_write self table call w).1 = Ok () →
  (∀ t, t ∈ tables_to_invalidate table → ¬ starts_with (table_prefix self t) k) →
  entries (cache (run_write self table call w).2) !! k = entries (cache w) !! k.
Proof.
  intros Hok Hk.
  destruct (run_write_ok self table call w Hok) as (d & n & m & ->).
  by apply purge_kept.
Qed.

Lemma write_keeps_other_entries_witness :
  entries (cache (run_write demo "inventory_current"
                    (CallInsert (One {["item_name" := VStr "Torch"]})) history_world).2)
    !! query_key demo "currency_current" (location_filter "locA")
  = entries (cache history_world) !! query_key demo "currency_current" (location_filter "locA").
Proof.
  apply (write_keeps_other_entries demo "inventory_current"
           (CallInsert (One {["item_name" := VStr "Torch"]})) history_world
           (query_key demo "currency_current" (location_filter "locA"))).
  - by vm_compute.
  - intros t Ht.
    assert (Hts : tables_to_invalidate "inventory_current"
                  = ["inventory_current"; "v_inventory"; "inventory_ledger"])
      by by vm_compute.
    rewrite Hts in Ht.
    repeat (apply elem_of_cons in Ht as [->|Ht]); [| | |by apply elem_of_nil in Ht];
      unfold starts_with; by vm_compute.
Defined.

(** X12.  [clear_all_cache] empties the whole cache, whatever prefix the
    keys carry, and touches nothing else; the next cached read of any
    table goes to the store. *)
Theorem clear_all_cache_empties self w :
  let w' := (clear_all_cache w).2 in
  (clear_all_cache w).1 = Ok ()
  ∧ entries (cache w') = ∅
  ∧ ttl (cache w') = ttl (cache w)
  ∧ db w' = db w
  ∧ trace w' = trace w
  ∧ ∀ t filters, trace (get self t filters true w').2 = trace w' ++ [(GET, t)].
Proof.
  cbv zeta.
  assert (He : entries (cache (clear_all_cache w).2) = ∅).
  { unfold clear_all_cache. destruct (cache_truthy (cache w)) eqn:Ht; [done|].
    unfold cache_truthy, cache_len in Ht. apply negb_false_iff, Nat.eqb_eq in Ht.
    by apply map_size_empty_iff. }
  split_and!; try done; try (unfold clear_all_cache; by destruct (cache_truthy (cache w))).
  intros t filters. apply get_miss_trace. by rewrite He.
Qed.

(** ** Setting a quantity directly *)

Section QuantitySteps.

Variable self : SupabaseClient.
Hypothesis digest_inj : Inj (=) (=) (query_digest self).


End QuantitySteps.





(** ** Character spells, feats, forms and companions *)



Section PairRemoval.

Variable self : SupabaseClient.


End PairRemoval.



(** In the spellbook both rows for Shield go and the one for Sleep stays. *)
Example remove_shield_twice_listed :
  let run := remove_character_spell demo "char-1" "Shield" spellbook_world in
  run.1 = Ok true
  ∧ table_rows "character_spells" run.2 = [spell_row "row-1" "Sleep"].
Proof. by vm_compute. Qed.



(** ** Runs of the inventory mutators *)

Section Runs.

Variable self : SupabaseClient.
Hypothesis digest_inj : Inj (=) (=) (query_digest self).





End Runs.








(** ** Transfers and round trips *)











(** The other way round the record is not restored: what a removal could
    not take is handed out by the addition. *)
Example remove_then_add_currency_gains :
  let w1 := (remove_currency demo "locA" 0 0 0 20 0 None treasury_world).2 in
  let w2 := (add_currency demo "locA" 0 0 0 20 0 None w1).2 in
  (λ r, coin_of r "gold") <$> purse "locA" treasury_world = [10]
  ∧ (λ r, coin_of r "gold") <$> purse "locA" w2 = [20].
Proof. by vm_compute. Qed.
